(** * Investor model of the isucon8-final benchmarker (bench/investor.go)

    A shallow embedding of the investor state machine: reconciliation of
    the local order list with the server ([UpdateOrders]), order placement
    ([AddOrder]), info polling ([Info]), task scheduling ([Next]) and the
    decision policy of [RandomInvestor] ([UpdateOrderTask]).

    Go [int64] values are [Z] with the two's-complement wrap-around written
    out by [i64]; [time.Time] values are [Z] instants and [time.Duration]
    values are [Z] spans on the same scale.  Calls to the exchange (the
    [Client]) are inputs of the functions: their results are passed in. *)

From Stdlib Require Import ZArith List String Ascii Bool Lia.
Import ListNotations.
Open Scope Z_scope.
Set Warnings "-register-all".

(** ** int64 arithmetic *)

Definition i64 (x : Z) : Z := (x + 2 ^ 63) mod 2 ^ 64 - 2 ^ 63.

(** Go's [/] on integers truncates toward zero. *)
Definition quot64 (a b : Z) : Z := i64 (Z.quot a b).

(** ** Orders (bench/client.go, outside the sources) *)

Inductive TradeType := TradeTypeSell | TradeTypeBuy.

Record Trade := mkTrade { trade_price : Z }.

Record Order := mkOrder {
  order_id : Z;
  order_type : TradeType;
  order_amount : Z;
  order_price : Z;
  order_closed_at : option Z;
  order_trade : option Trade
}.

(** Modelled from the spec: [Order.Removed], whose body is not among the
    sources.  The spec's order lifecycle separates an order observed as
    settled (trade present) from one closed by a cancellation; [Removed]
    holds of the latter: a close time and no trade. *)
Definition Removed (o : Order) : bool :=
  match order_closed_at o, order_trade o with
  | Some _, None => true
  | _, _ => false
  end.

Definition close_order (o : Order) (t : Z) : Order :=
  mkOrder (order_id o) (order_type o) (order_amount o) (order_price o)
    (Some t) (order_trade o).

(** ** Results *)

(** The errors a task can return; [ErrClient] is an error of the exchange
    client (transport, status code or business message). *)
Inductive Error :=
| ErrClient (msg : string)
| ErrOrdersNotReflected
| ErrSellOrderMissing (id : Z).

(** A task's action returns a value, returns an error, or panics (a Go
    runtime panic, such as an index out of range). *)
Inductive result (A : Type) :=
| Ok (a : A)
| Err (e : Error)
| Panic (msg : string).
Arguments Ok {A} a.
Arguments Err {A} e.
Arguments Panic {A} msg.

Definition bind {A B} (r : result A) (f : A -> result B) : result B :=
  match r with
  | Ok a => f a
  | Err e => Err e
  | Panic m => Panic m
  end.

Notation "'let*' x := r 'in' k" := (bind r (fun x => k))
  (at level 200, x name, r at level 100, k at level 200).

(** ** Tasks *)

(** The tasks an investor builds, by the method that builds them. *)
Inductive task :=
| TTop
| TInfo
| TSignup
| TSignin
| TUpdateOrders
| TAddOrder (ot : TradeType) (amount price : Z)
| TRemoveOrder (o : Order)
| TFixNextTask
| TSerial (ts : list task).

(** Scoring configuration and intervals (bench/score.go and the bench
    constants, outside the sources): tunable inputs of the model. *)
Record Config := mkConfig {
  GetInfoScore : Z;
  GetOrdersScore : Z;
  PostOrdersScore : Z;
  DeleteOrdersScore : Z;
  PollingInterval : Z;
  OrderUpdateInterval : Z
}.

Definition OrderCap : Z := 5.

(** ** Investor state *)

Record investorBase := mkInvestorBase {
  defcredit : Z;
  credit : Z;
  resvedCredit : Z;
  defisu : Z;
  isu : Z;
  resvedIsu : Z;
  orders : list Order;
  lowestSellPrice : Z;
  highestBuyPrice : Z;
  latestTradePrice : Z;
  isSignin : bool;
  isStarted : bool;
  lastCursor : Z;
  pollingTime : Z;
  lastOrder : Z;
  taskStack : list task
}.

Definition newInvestorBase (credit0 isu0 : Z) : investorBase :=
  mkInvestorBase credit0 credit0 0 isu0 isu0 0 [] 0 0 0 false false 0 0 0 [].

Definition set_orders (i : investorBase) (os : list Order) : investorBase :=
  mkInvestorBase (defcredit i) (credit i) (resvedCredit i) (defisu i) (isu i)
    (resvedIsu i) os (lowestSellPrice i) (highestBuyPrice i)
    (latestTradePrice i) (isSignin i) (isStarted i) (lastCursor i)
    (pollingTime i) (lastOrder i) (taskStack i).

Definition set_taskStack (i : investorBase) (ts : list task) : investorBase :=
  mkInvestorBase (defcredit i) (credit i) (resvedCredit i) (defisu i) (isu i)
    (resvedIsu i) (orders i) (lowestSellPrice i) (highestBuyPrice i)
    (latestTradePrice i) (isSignin i) (isStarted i) (lastCursor i)
    (pollingTime i) (lastOrder i) ts.

(** [pushNextTask] *)
Definition pushNextTask (i : investorBase) (t : task) : investorBase :=
  set_taskStack i (taskStack i ++ [t]).

(** ** UpdateOrders *)

Fixpoint last_opt {A} (l : list A) : option A :=
  match l with
  | [] => None
  | [x] => Some x
  | _ :: l' => last_opt l'
  end.

(** [for _, ro := range orders { if ro.ID == o.ID { order = &ro; break } }] *)
Fixpoint find_order (id : Z) (rs : list Order) : option Order :=
  match rs with
  | [] => None
  | r :: rs' => if order_id r =? id then Some r else find_order id rs'
  end.

(** The four accumulators of the merge loop. *)
Record acc := mkAcc {
  a_resvedCredit : Z;
  a_resvedIsu : Z;
  a_tradedIsu : Z;
  a_tradedCredit : Z
}.

Definition acc0 : acc := mkAcc 0 0 0 0.

(** The [switch] on a server order. *)
Definition account (a : acc) (r : Order) : acc :=
  match order_trade r, order_type r with
  | Some t, TradeTypeSell =>
      mkAcc (a_resvedCredit a) (a_resvedIsu a)
        (i64 (a_tradedIsu a - order_amount r))
        (i64 (a_tradedCredit a + i64 (order_amount r * trade_price t)))
  | Some t, TradeTypeBuy =>
      mkAcc (a_resvedCredit a) (a_resvedIsu a)
        (i64 (a_tradedIsu a + order_amount r))
        (i64 (a_tradedCredit a - i64 (order_amount r * trade_price t)))
  | None, TradeTypeSell =>
      mkAcc (a_resvedCredit a) (i64 (a_resvedIsu a + order_amount r))
        (a_tradedIsu a) (a_tradedCredit a)
  | None, TradeTypeBuy =>
      mkAcc (i64 (a_resvedCredit a + i64 (order_amount r * order_price r)))
        (a_resvedIsu a) (a_tradedIsu a) (a_tradedCredit a)
  end.

(** The merge loop over [i.orders].  The orders are pointers, so the
    updates of the orders already visited stay when the loop returns an
    error: the loop returns the order list as it leaves it, with the
    accumulators or the error. *)
Fixpoint merge_orders (now : Z) (srv : list Order) (os : list Order) (a : acc)
  : list Order * result acc :=
  match os with
  | [] => ([], Ok a)
  | o :: rest =>
      if Removed o then
        let '(rest', r) := merge_orders now srv rest a in (o :: rest', r)
      else
        match find_order (order_id o) srv with
        | None =>
            match order_type o with
            | TradeTypeSell => (o :: rest, Err (ErrSellOrderMissing (order_id o)))
            | TradeTypeBuy =>
                let '(rest', r) := merge_orders now srv rest a in
                (close_order o now :: rest', r)
            end
        | Some ro =>
            let '(rest', r) := merge_orders now srv rest (account a ro) in
            (ro :: rest', r)
        end
  end.

(** The check on the most recent order, before the merge:
    [glo := orders[len(orders)-1]] panics on an empty server list. *)
Definition check_latest (local srv : list Order) : result unit :=
  match last_opt local with
  | None => Ok tt
  | Some lo =>
      match order_type lo with
      | TradeTypeSell =>
          match last_opt srv with
          | None => Panic "index out of range [-1]"
          | Some glo =>
              if order_id lo =? order_id glo then Ok tt
              else Err ErrOrdersNotReflected
          end
      | TradeTypeBuy => Ok tt
      end
  end.

Definition store_balances (i : investorBase) (os : list Order) (a : acc)
  : investorBase :=
  mkInvestorBase (defcredit i) (i64 (defcredit i + a_tradedCredit a))
    (a_resvedCredit a) (defisu i) (i64 (defisu i + a_tradedIsu a))
    (a_resvedIsu a) os (lowestSellPrice i) (highestBuyPrice i)
    (latestTradePrice i) (isSignin i) (isStarted i) (lastCursor i)
    (pollingTime i) (lastOrder i) (taskStack i).

(** The action of [investorBase.UpdateOrders]: [getOrders] is the result of
    [i.c.GetOrders()], [now] the value of [time.Now()]. *)
Definition UpdateOrders (now : Z) (getOrders : result (list Order))
  (i : investorBase) : investorBase * result unit :=
  match getOrders with
  | Err e => (i, Err e)
  | Panic m => (i, Panic m)
  | Ok srv =>
      match check_latest (orders i) srv with
      | Err e => (i, Err e)
      | Panic m => (i, Panic m)
      | Ok _ =>
          let '(os, r) := merge_orders now srv (orders i) acc0 in
          match r with
          | Ok a => (store_balances i os a, Ok tt)
          | Err e => (set_orders i os, Err e)
          | Panic m => (set_orders i os, Panic m)
          end
      end
  end.

(** [taskworker.NewExecTask(f, score)]: modelled from the spec (the
    taskworker package is not among the sources): a task with a fixed
    score, which yields that score when its action succeeds. *)
Definition ExecTask (score : Z) (r : result unit) : result Z :=
  let* _ := r in Ok score.

(** ** AddOrder *)

Definition error_message (e : Error) : string :=
  match e with
  | ErrClient m => m
  | ErrOrdersNotReflected => "GET /orders 注文内容が反映されていません"
  | ErrSellOrderMissing _ => "GET /orders 売り注文が足りないか削除されています"
  end.

(** [strings.Index(s, sub) > -1] *)
Definition contains (s sub : string) : bool :=
  match String.index 0 sub s with
  | Some _ => true
  | None => false
  end.

Definition msg_insufficient_balance : string := "銀行残高が足りません".

(** The action of [investorBase.AddOrder]: [res] is the result of
    [i.c.AddOrder(ot, amount, price)], [now] the value of [time.Now()]. *)
Definition AddOrder (now : Z) (res : result Order) (i : investorBase)
  : investorBase * result unit :=
  match res with
  | Err e =>
      if contains (error_message e) msg_insufficient_balance then (i, Ok tt)
      else (i, Err e)
  | Panic m => (i, Panic m)
  | Ok o =>
      (mkInvestorBase (defcredit i) (credit i) (resvedCredit i) (defisu i)
         (isu i) (resvedIsu i) (orders i ++ [o]) (lowestSellPrice i)
         (highestBuyPrice i) (latestTradePrice i) (isSignin i) (isStarted i)
         (lastCursor i) (pollingTime i) now (taskStack i), Ok tt)
  end.

(** The task [AddOrder] returns: an exec task scored [PostOrdersScore]. *)
Definition AddOrderTask (cfg : Config) (now : Z) (res : result Order)
  (i : investorBase) : investorBase * result Z :=
  let '(i', r) := AddOrder now res i in (i', ExecTask (PostOrdersScore cfg) r).

(** ** Info *)

Record InfoResponse := mkInfoResponse {
  info_lowest_sell_price : Z;
  info_highest_buy_price : Z;
  info_chart_by_hour_close : list Z;
  info_traded_orders : list Order;
  info_cursor : Z
}.

(** The task [investorBase.Info] returns.  [retired] is [i.IsRetired()],
    [now] the first [time.Now()], [now'] the second one (after the call),
    [res] the result of [i.c.Info(i.lastCursor)]. *)
Definition Info (cfg : Config) (retired : bool) (now now' : Z)
  (res : result InfoResponse) (i : investorBase) : investorBase * result Z :=
  if retired then (i, Ok 0)
  else if now <? pollingTime i then (i, Ok 0)
  else
    match res with
    | Err e => (i, Err e)
    | Panic m => (i, Panic m)
    | Ok info =>
        let ltp :=
          match last_opt (info_chart_by_hour_close info) with
          | Some c => c
          | None => latestTradePrice i
          end in
        let ts :=
          match info_traded_orders info with
          | [] => taskStack i
          | _ :: _ => taskStack i ++ [TUpdateOrders]
          end in
        (mkInvestorBase (defcredit i) (credit i) (resvedCredit i) (defisu i)
           (isu i) (resvedIsu i) (orders i) (info_lowest_sell_price info)
           (info_highest_buy_price info) ltp (isSignin i) (isStarted i)
           (info_cursor info) (now' + PollingInterval cfg) (lastOrder i) ts,
         Ok (GetInfoScore cfg))
    end.

(** ** Next *)

(** [investorBase.Next]: the serial task [Info, queued tasks...], the queue
    emptied. *)
Definition baseNext (retired : bool) (i : investorBase)
  : option task * investorBase :=
  if retired then (None, i)
  else (Some (TSerial (TInfo :: taskStack i)), set_taskStack i []).

(** ** RandomInvestor *)

Record RandomInvestor := mkRandomInvestor {
  base : investorBase;
  unitamount : Z;
  unitprice : Z
}.

Definition set_base (ri : RandomInvestor) (b : investorBase) : RandomInvestor :=
  mkRandomInvestor b (unitamount ri) (unitprice ri).

(** [RandomInvestor.Next]: [FixNextTask] appended to the serial task. *)
Definition Next (retired : bool) (ri : RandomInvestor)
  : option task * RandomInvestor :=
  if retired then (None, ri)
  else
    let '(t, b) := baseNext retired (base ri) in
    match t with
    | Some (TSerial ts) => (Some (TSerial (ts ++ [TFixNextTask])), set_base ri b)
    | _ => (t, set_base ri b)
    end.

(** The margin of an order against the best opposing price. *)
Definition mdiff (i : investorBase) (o : Order) : Z :=
  match order_type o with
  | TradeTypeSell => i64 (order_price o - highestBuyPrice i)
  | _ => i64 (lowestSellPrice i - order_price o)
  end.

(** The loop choosing the order to release: [o] and [df]. *)
Fixpoint pick_release (i : investorBase) (os : list Order)
  (cur : option (Order * Z)) : option (Order * Z) :=
  match os with
  | [] => cur
  | order :: rest =>
      let m := mdiff i order in
      match cur with
      | Some (_, df) =>
          if df <? m then pick_release i rest (Some (order, m))
          else pick_release i rest cur
      | None => pick_release i rest (Some (order, m))
      end
  end.

(** [update := len(i.orders) == 0 || i.lastOrder.Add(OrderUpdateInterval).After(now)] *)
Definition update_flag (cfg : Config) (now : Z) (i : investorBase) : bool :=
  match orders i with
  | [] => true
  | _ => now <? lastOrder i + OrderUpdateInterval cfg
  end.

(** [rand.Int63n(n)]: [Int63n n] is the number drawn; the function panics
    when [n <= 0] ([None]). *)
Definition rand_Int63n (Int63n : Z -> Z) (n : Z) : option Z :=
  if n <=? 0 then None else Some (Int63n n).

Definition msg_Int63n : string := "invalid argument to Int63n".

(** [UpdateOrderTask].  [retired] is [i.IsRetired()], [now] is
    [time.Now()] and [Int63n] is [rand.Int63n].  The result is the task
    returned ([Ok None] for [nil]) or the panic of [rand.Int63n]; a panic
    leaves the investor as it was. *)
Definition UpdateOrderTask (cfg : Config) (retired : bool) (now : Z)
  (Int63n : Z -> Z) (ri : RandomInvestor) : result (option task) * RandomInvestor :=
  let i := base ri in
  if retired then (Ok None, ri)
  else
    let update := update_flag cfg now i in
    if negb update then (Ok None, ri)
    else
      let n := Z.of_nat (List.length (orders i)) in
      let logicalCredit := i64 (credit i - resvedCredit i) in
      let logicalIsu := i64 (isu i - resvedIsu i) in
      let lsp := lowestSellPrice i in
      let hbp := highestBuyPrice i in
      let ua := unitamount ri in
      let up := unitprice ri in
      if OrderCap <=? n then
        match pick_release i (orders i) None with
        | Some (o, _) => (Ok (Some (TRemoveOrder o)), ri)
        | None => (Ok None, ri)
        end
      else if (n =? 0) && (ua <? logicalIsu) then
        (Ok (Some (TAddOrder TradeTypeSell ua up)), ri)
      else if n =? 0 then
        (Ok (Some (TAddOrder TradeTypeBuy ua up)), ri)
      else if (0 <? lsp) && (lsp <? up) && (lsp <=? logicalCredit) then
        match rand_Int63n Int63n (quot64 logicalCredit lsp) with
        | None => (Panic msg_Int63n, ri)
        | Some r =>
            let amount := i64 (r + 1) in
            let amount := if ua <? amount then ua else amount in
            (Ok (Some (TAddOrder TradeTypeBuy amount lsp)), ri)
        end
      else if (0 <? hbp) && (up <? hbp) && (0 <? logicalIsu) then
        match rand_Int63n Int63n logicalIsu with
        | None => (Panic msg_Int63n, ri)
        | Some r =>
            let amount := i64 (r + 1) in
            let amount := if ua <? amount then ua else amount in
            (Ok (Some (TAddOrder TradeTypeSell amount hbp)), ri)
        end
      else if ua <? logicalIsu then
        let price := if lsp =? 0 then up else quot64 (i64 (lsp + up)) 2 in
        match rand_Int63n Int63n ua with
        | None => (Panic msg_Int63n, ri)
        | Some r => (Ok (Some (TAddOrder TradeTypeSell (i64 (r + 1)) price)), ri)
        end
      else if quot64 (i64 (hbp + up)) 2 <? logicalCredit then
        let price := if hbp =? 0 then up else quot64 (i64 (hbp + up)) 2 in
        match rand_Int63n Int63n ua with
        | None => (Panic msg_Int63n, ri)
        | Some r => (Ok (Some (TAddOrder TradeTypeBuy (i64 (r + 1)) price)), ri)
        end
      else
        let ltp := latestTradePrice i in
        if 0 <? ltp then
          (Ok None, mkRandomInvestor i ua (quot64 (i64 (ltp + up)) 2))
        else (Ok None, ri).

(** ** RemoveOrder, Signup, Signin, Start, FixNextTask *)

(** The result of [i.c.DeleteOrders(id)]: success, an [*ErrorWithStatus]
    carrying an HTTP status code, or another error. *)
Inductive DeleteResult :=
| DeleteOk
| DeleteStatusErr (code : Z) (msg : string)
| DeleteErr (e : Error).

(** [for _, o := range i.orders { if o.ID == order.ID { o.ClosedAt = &ct;
    found = true; break } }] *)
Fixpoint close_first (id now : Z) (os : list Order) : list Order :=
  match os with
  | [] => []
  | o :: os' =>
      if order_id o =? id then close_order o now :: os'
      else o :: close_first id now os'
  end.

(** The task [investorBase.RemoveOrder(order)] returns.  [order] is the
    value [*order] has when the task runs; [res] is the result of
    [i.c.DeleteOrders(order.ID)]. *)
Definition RemoveOrder (cfg : Config) (now : Z) (res : DeleteResult)
  (order : Order) (i : investorBase) : investorBase * result Z :=
  if Removed order then (i, Ok 0)
  else
    match res with
    | DeleteStatusErr code msg =>
        if code =? 404 then (i, Ok 0) else (i, Err (ErrClient msg))
    | DeleteErr e => (i, Err e)
    | DeleteOk =>
        (set_orders i (close_first (order_id order) now (orders i)),
         Ok (DeleteOrdersScore cfg))
    end.

Definition msg_bank_id_exists : string := "bank_id already exists".

(** The task [investorBase.Signup] returns; [res] is the result of
    [i.c.Signup()] (the random sleep is left out). *)
Definition Signup (SignupScore : Z) (res : result unit) (i : investorBase)
  : investorBase * result Z :=
  if isSignin i then (i, Ok 0)
  else
    match res with
    | Ok _ => (i, Ok SignupScore)
    | Err e =>
        if contains (error_message e) msg_bank_id_exists then (i, Ok SignupScore)
        else (i, Err e)
    | Panic m => (i, Panic m)
    end.

(** The task [investorBase.Signin] returns: an exec task scored
    [SigninScore]; [res] is the result of [i.c.Signin()]. *)
Definition Signin (SigninScore : Z) (res : result unit) (i : investorBase)
  : investorBase * result Z :=
  match res with
  | Ok _ =>
      (mkInvestorBase (defcredit i) (credit i) (resvedCredit i) (defisu i)
         (isu i) (resvedIsu i) (orders i) (lowestSellPrice i)
         (highestBuyPrice i) (latestTradePrice i) true (isStarted i)
         (lastCursor i) (pollingTime i) (lastOrder i) (taskStack i),
       ExecTask SigninScore (Ok tt))
  | Err e => (i, Err e)
  | Panic m => (i, Panic m)
  end.

(** [RandomInvestor.FixNextTask]: an exec task scored 0 that runs the
    policy and queues its task followed by a reconciliation; a panic of
    the policy propagates. *)
Definition FixNextTask (cfg : Config) (retired : bool) (now : Z)
  (Int63n : Z -> Z) (ri : RandomInvestor) : RandomInvestor * result Z :=
  let '(t, ri') := UpdateOrderTask cfg retired now Int63n ri in
  match t with
  | Ok (Some t) =>
      (set_base ri' (pushNextTask (pushNextTask (base ri') t) TUpdateOrders),
       ExecTask 0 (Ok tt))
  | Ok None => (ri', ExecTask 0 (Ok tt))
  | Err e => (ri', ExecTask 0 (Err e))
  | Panic m => (ri', ExecTask 0 (Panic m))
  end.

(** ** Steps of an investor that places no order

    The operations an investor runs on its own state besides placements:
    time passing, polling, reconciliation and the decision policy. *)
Inductive idle_step (cfg : Config) : Z * RandomInvestor -> Z * RandomInvestor -> Prop :=
| idle_time now now' ri :
    now <= now' -> idle_step cfg (now, ri) (now', ri)
| idle_info now now' retired res ri :
    idle_step cfg (now, ri)
      (now, set_base ri (fst (Info cfg retired now now' res (base ri))))
| idle_update now res ri :
    idle_step cfg (now, ri) (now, set_base ri (fst (UpdateOrders now res (base ri))))
| idle_policy now retired Int63n ri :
    idle_step cfg (now, ri) (now, snd (UpdateOrderTask cfg retired now Int63n ri)).

Inductive idle_steps (cfg : Config) : Z * RandomInvestor -> Z * RandomInvestor -> Prop :=
| idle_refl st : idle_steps cfg st st
| idle_trans st1 st2 st3 :
    idle_step cfg st1 st2 -> idle_steps cfg st2 st3 -> idle_steps cfg st1 st3.

(** * The exchange's HTTP handlers (webapp controller/handler.go)

    The handlers as functions of the results of the calls they make
    (database, bank, session store): those results are inputs.  What a
    handler writes to the database inside a transaction is returned as a
    list of writes, kept only when the transaction commits. *)

Module Handler.

(** ** Errors

    [GNew] is [errors.New] / [errors.Errorf]; [GWrap] is [errors.Wrap] /
    [errors.Wrapf] (a new value, whose text is the message, ": " and the
    cause's text); [GWithCode] is [*errWithCode]; [GSentinel] is a package
    level error value of a library ([sql.ErrNoRows], ...), compared by
    identity, whose name stands for its text; [GNum] is the
    [*strconv.NumError] of a failed parse. *)
Inductive numError := ErrSyntax | ErrRange.

Inductive gerror :=
| GNew (msg : string)
| GWrap (msg : string) (cause : gerror)
| GWithCode (code : Z) (err : gerror)
| GSentinel (name : string)
| GNum (e : numError) (input : string).

Definition sql_ErrNoRows : gerror := GSentinel "sql.ErrNoRows".
Definition isubank_ErrCreditInsufficient : gerror :=
  GSentinel "isubank.ErrCreditInsufficient".
Definition bcrypt_ErrMismatchedHashAndPassword : gerror :=
  GSentinel "bcrypt.ErrMismatchedHashAndPassword".

(** [err == sentinel]: identity with a package level error value. *)
Definition is_sentinel (s : gerror) (err : gerror) : bool :=
  match s, err with
  | GSentinel n, GSentinel m => String.eqb n m
  | _, _ => false
  end.

Definition num_error_text (e : numError) : string :=
  match e with
  | ErrSyntax => "invalid syntax"
  | ErrRange => "value out of range"
  end.

Definition quote : string := String (Ascii.ascii_of_nat 34) EmptyString.

Section Quoting.

(** [strconv.Quote] of the Go library, which [*strconv.NumError] applies
    to the input in its text; its escaping (of quotes, backslashes, control
    characters and non-printable Unicode) is taken as given. *)
Variable Quote : string -> string.

(** [err.Error()] *)
Fixpoint gmsg (e : gerror) : string :=
  match e with
  | GNew m => m
  | GWrap m c => m ++ ": " ++ gmsg c
  | GWithCode _ c => gmsg c
  | GSentinel n => n
  | GNum k s =>
      "strconv.ParseInt: parsing " ++ Quote s ++ ": " ++ num_error_text k
  end.

(** [errcodeWrap(err, code)] for a non-nil [err] *)
Definition errcodeWrap (err : gerror) (code : Z) : gerror := GWithCode code err.

(** [errcode(err, code)] *)
Definition errcode (err : string) (code : Z) : gerror := errcodeWrap (GNew err) code.

(** ** Responses *)

Inductive response (P : Type) :=
| RErr (code : Z) (msg : string)
| ROk (data : P).
#[global] Arguments RErr {P}.
#[global] Arguments ROk {P}.

(** [h.handleError(w, err, code)]: the status code of a top-level
    [*errWithCode] replaces [code], and its inner error gives the text. *)
Definition handleError {P} (err : gerror) (code : Z) : response P :=
  match err with
  | GWithCode c e => RErr c (gmsg e)
  | _ => RErr code (gmsg err)
  end.

(** ** Transactions *)

Inductive write :=
| WInsertOrder (ot : string) (user_id amount price : Z)
| WCloseOrder (order_id closed_at : Z).

(** How the body of a transaction ends: [return nil], [return err] or a
    panic with a value. *)
Inductive bodyResult :=
| BodyOk
| BodyErr (e : gerror)
| BodyPanic (v : string).

(** [txScorp(db, f)]: [beginErr] is the error of [db.Begin()], [body] how
    [f(tx)] ends with the writes it made, [commitErr] the error of
    [tx.Commit()].  Returns the error and the writes that persist. *)
Definition txScorp (beginErr : option gerror) (body : bodyResult * list write)
  (commitErr : option gerror) : option gerror * list write :=
  match beginErr with
  | Some e => (Some (GWrap "begin transaction failed" e), [])
  | None =>
      match body with
      | (BodyPanic v, _) => (Some (GNew ("panic in transaction: " ++ v)), [])
      | (BodyErr e, _) => (Some e, [])
      | (BodyOk, ws) =>
          match commitErr with
          | Some e => (Some e, [])
          | None => (None, ws)
          end
      end
  end.

(** ** Parsing and printing integers *)

Definition maxUint64 : Z := 2 ^ 64 - 1.

(** The digit loop of [strconv.ParseUint(s, 10, 64)]. *)
Fixpoint parse_digits (n : Z) (s : list Ascii.ascii) : numError + Z :=
  match s with
  | [] => inr n
  | c :: s' =>
      let d := Z.of_nat (Ascii.nat_of_ascii c) - 48 in
      if (d <? 0) || (9 <? d) then inl ErrSyntax
      else if maxUint64 / 10 + 1 <=? n then inl ErrRange
      else
        let n1 := n * 10 + d in
        if maxUint64 <? n1 then inl ErrRange
        else parse_digits n1 s'
  end.

(** [strconv.ParseUint(s, 10, 64)] *)
Definition ParseUint (s : list Ascii.ascii) : numError + Z :=
  match s with
  | [] => inl ErrSyntax
  | _ => parse_digits 0 s
  end.

(** [strconv.ParseInt(s, 10, 64)], with the kind of its error. *)
Definition ParseInt (s : string) : numError + Z :=
  match list_ascii_of_string s with
  | [] => inl ErrSyntax
  | c :: rest =>
      let '(neg, digits) :=
        if Ascii.eqb c "+"%char then (false, rest)
        else if Ascii.eqb c "-"%char then (true, rest)
        else (false, c :: rest) in
      match ParseUint digits with
      | inl e => inl e
      | inr un =>
          if negb neg && (2 ^ 63 <=? un) then inl ErrRange
          else if neg && (2 ^ 63 <? un) then inl ErrRange
          else inr (if neg then - un else un)
      end
  end.

(** The decimal digits of a nonnegative number, before [acc]. *)
Fixpoint digits_of (fuel : nat) (n : Z) (acc : string) : string :=
  match fuel with
  | O => acc
  | S f =>
      let acc' := String (Ascii.ascii_of_nat (48 + Z.to_nat (n mod 10))) acc in
      if n <? 10 then acc' else digits_of f (n / 10) acc'
  end.

(** The verb [%d] of [fmt] on an int64. *)
Definition fmt_int (n : Z) : string :=
  if n <? 0 then String "-"%char (digits_of 20 (- n) EmptyString)
  else digits_of 20 n EmptyString.

(** [formvalInt64(r, key)]: [v] is [r.FormValue(key)] ("" when absent). *)
Definition formvalInt64 (key v : string) : gerror + Z :=
  if String.eqb v "" then inl (GNew (key ++ " is required"))
  else
    match ParseInt v with
    | inl _ => inl (GNew (key ++ " can't parse to int64"))
    | inr i => inr i
    end.

(** ** Users and orders as stored *)

Record User := mkUser {
  user_id : Z;
  user_bank_id : string;
  user_name : string;
  user_password : string
}.

Record DbOrder := mkDbOrder {
  dbo_id : Z;
  dbo_type : string;
  dbo_user_id : Z;
  dbo_amount : Z;
  dbo_price : Z;
  dbo_closed_at : option Z
}.

(** ** AddOrders

    [OrderTypeBuy] and [OrderTypeSell] are the two order type strings of
    the model package. *)
Section AddOrders.

Variables OrderTypeBuy OrderTypeSell : string.

Definition msg_credit_insufficient : string := "銀行残高が足りません".

(** What follows the type switch of the transaction's body: the insert and
    its id. *)
Definition AddOrders_insert (u : User) (ot : string) (amount price : Z)
  (insertErr : option gerror) (lastInsertId : gerror + Z)
  : Z * (bodyResult * list write) :=
  match insertErr with
  | Some e => (0, (BodyErr (GWrap "insert order failed" e), []))
  | None =>
      match lastInsertId with
      | inl e =>
          (0, (BodyErr (GWrap "get order_id failed" e),
               [WInsertOrder ot (user_id u) amount price]))
      | inr id => (id, (BodyOk, [WInsertOrder ot (user_id u) amount price]))
      end
  end.

(** The transaction's body of [AddOrders]: the value of [id] it leaves
    and how it ends.  [lockErr], [loggerErr] and [bankErr] are the errors
    of [GetUserByIDWithLock], [model.Logger] and [model.Isubank];
    [amount_v], [price_v], [ot] the form values; [bankCheck] is
    [bank.Check]; [insertErr] the error of the INSERT and [lastInsertId]
    the result of [res.LastInsertId()]. *)
Definition AddOrders_body (u : User) (lockErr loggerErr bankErr : option gerror)
  (amount_v price_v ot : string) (bankCheck : string -> Z -> option gerror)
  (insertErr : option gerror) (lastInsertId : gerror + Z)
  : Z * (bodyResult * list write) :=
  match lockErr with
  | Some e =>
      (0, (BodyErr (GWrap ("model.GetUserByIDWithLock failed. id:" ++ fmt_int (user_id u)) e), []))
  | None =>
  match loggerErr with
  | Some e => (0, (BodyErr (GWrap "newLogger failed" e), []))
  | None =>
  match bankErr with
  | Some e => (0, (BodyErr (GWrap "newIsubank failed" e), []))
  | None =>
  match formvalInt64 "amount" amount_v with
  | inl e => (0, (BodyErr (errcodeWrap (GWrap "formvalInt64 failed. amount" e) 400), []))
  | inr amount =>
  if amount <=? 0 then
    (0, (BodyErr (errcodeWrap (GNew ("amount is must be greater 0. [" ++ fmt_int amount ++ "]")) 400), []))
  else
  match formvalInt64 "price" price_v with
  | inl e => (0, (BodyErr (errcodeWrap (GWrap "formvalInt64 failed. price" e) 400), []))
  | inr price =>
  if price <=? 0 then
    (0, (BodyErr (errcodeWrap (GNew ("price is must be greater 0. [" ++ fmt_int price ++ "]")) 400), []))
  else if String.eqb ot OrderTypeBuy then
    let totalPrice := i64 (price * amount) in
    match bankCheck (user_bank_id u) totalPrice with
    | Some e =>
        if is_sentinel isubank_ErrCreditInsufficient e then
          (0, (BodyErr (errcode msg_credit_insufficient 400), []))
        else (0, (BodyErr (GWrap "isubank check failed" e), []))
    | None => AddOrders_insert u ot amount price insertErr lastInsertId
    end
  else if String.eqb ot OrderTypeSell then
    AddOrders_insert u ot amount price insertErr lastInsertId
  else (0, (BodyErr (errcode "type must be sell or buy" 400), []))
  end end end end end.

(** [h.AddOrders]: [user] is the result of [h.userByRequest(r)],
    [beginErr] and [commitErr] those of the transaction, [tradeChance] the
    result of [model.HasTradeChanceByOrder(h.db, id)].  Returns the
    response (the new order's id on success), the writes that persist and
    whether [model.RunTrade] is called. *)
Definition AddOrders (user : gerror + User) (beginErr : option gerror)
  (lockErr loggerErr bankErr : option gerror) (amount_v price_v ot : string)
  (bankCheck : string -> Z -> option gerror) (insertErr : option gerror)
  (lastInsertId : gerror + Z) (commitErr : option gerror)
  (tradeChance : gerror + bool) : response Z * list write * bool :=
  match user with
  | inl e => (handleError e 401, [], false)
  | inr u =>
      let '(id, body) :=
        AddOrders_body u lockErr loggerErr bankErr amount_v price_v ot bankCheck
          insertErr lastInsertId in
      match txScorp beginErr body commitErr with
      | (Some e, ws) => (handleError e 500, ws, false)
      | (None, ws) =>
          match tradeChance with
          | inl e => (handleError e 500, ws, false)
          | inr b => (ROk id, ws, b)
          end
      end
  end.

End AddOrders.

(** ** DeleteOrders *)

(** The transaction's body of [DeleteOrders]: [id_v] is [p.ByName("id")],
    [getOrder] is [model.GetOrderByIDWithLock(tx, .)], [now] the value of
    [time.Now()] and [updateErr] the error of the UPDATE. *)
Definition DeleteOrders_body (u : User) (lockErr loggerErr : option gerror)
  (id_v : string) (getOrder : Z -> gerror + DbOrder) (now : Z)
  (updateErr : option gerror) : Z * (bodyResult * list write) :=
  match lockErr with
  | Some e =>
      (0, (BodyErr (GWrap ("model.GetUserByIDWithLock failed. id:" ++ fmt_int (user_id u)) e), []))
  | None =>
  match loggerErr with
  | Some e => (0, (BodyErr (GWrap "newLogger failed" e), []))
  | None =>
  if String.eqb id_v "" then (0, (BodyErr (errcodeWrap (GNew "id is required") 400), []))
  else
  match ParseInt id_v with
  | inl k => (0, (BodyErr (errcodeWrap (GWrap "id parse failed" (GNum k id_v)) 400), []))
  | inr id =>
  match getOrder id with
  | inl e =>
      let err := GWrap "model.GetOrderByIDWithLock failed. id" e in
      if is_sentinel sql_ErrNoRows err then (id, (BodyErr (errcodeWrap err 404), []))
      else (id, (BodyErr err, []))
  | inr order =>
      if negb (dbo_user_id order =? user_id u) then
        (id, (BodyErr (errcodeWrap (GNew "not found") 404), []))
      else
        match dbo_closed_at order with
        | Some _ => (id, (BodyErr (errcodeWrap (GNew "already closed") 404), []))
        | None =>
            match updateErr with
            | Some e => (id, (BodyErr (GWrap "update orders for cancel" e), []))
            | None => (id, (BodyOk, [WCloseOrder (dbo_id order) now]))
            end
        end
  end end end end.

(** [h.DeleteOrders]: the response (the id on success) and the writes
    that persist. *)
Definition DeleteOrders (user : gerror + User) (beginErr : option gerror)
  (lockErr loggerErr : option gerror) (id_v : string)
  (getOrder : Z -> gerror + DbOrder) (now : Z) (updateErr commitErr : option gerror)
  : response Z * list write :=
  match user with
  | inl e => (handleError e 401, [])
  | inr u =>
      let '(id, body) := DeleteOrders_body u lockErr loggerErr id_v getOrder now updateErr in
      match txScorp beginErr body commitErr with
      | (Some e, ws) => (handleError e 500, ws)
      | (None, ws) => (ROk id, ws)
      end
  end.

(** ** Signin *)

Definition msg_not_match : string := "bank_id or password is not match".

(** [h.Signin]: [loggerErr] is the error of [model.Logger];
    [getUserByBankID] is [model.GetUserByBankID]; [compare hash password]
    is [bcrypt.CompareHashAndPassword]; [sessionGetErr] and
    [sessionSaveErr] the errors of the session store.  Returns the
    response and the user id stored in the session, if it is saved. *)
Definition Signin (bank_id password : string) (loggerErr : option gerror)
  (getUserByBankID : string -> gerror + User)
  (compare : string -> string -> option gerror)
  (sessionGetErr sessionSaveErr : option gerror) : response User * option Z :=
  if String.eqb bank_id "" || String.eqb password "" then
    (handleError (GNew "all paramaters are required") 400, None)
  else
  match loggerErr with
  | Some e => (handleError e 500, None)
  | None =>
  match getUserByBankID bank_id with
  | inl e =>
      if is_sentinel sql_ErrNoRows e then (handleError (GNew msg_not_match) 404, None)
      else (handleError e 500, None)
  | inr user =>
  match compare (user_password user) password with
  | Some e =>
      if is_sentinel bcrypt_ErrMismatchedHashAndPassword e then
        (handleError (GNew msg_not_match) 404, None)
      else (handleError e 400, None)
  | None =>
  match sessionGetErr with
  | Some e => (handleError e 500, None)
  | None =>
  match sessionSaveErr with
  | Some e => (handleError e 500, None)
  | None => (ROk user, Some (user_id user))
  end end end end end.

(** ** Info *)

Section Info.

(** [time.Time] values, [time.Unix(0, 0)] and the three truncations
    ([time.Date] with the seconds, minutes or hours kept) are taken as
    given; a candlestick is an opaque value. *)
Variable Time : Type.
Variable time_unix0 : Time.
Variables by_sec by_min by_hour : Time -> Time.
Variable Candle : Type.

Record TradeRow := mkTradeRow { trade_id : Z; trade_created_at : Time }.

Record InfoRes := mkInfoRes {
  ir_cursor : Z;
  ir_traded_orders : option (list DbOrder);
  ir_chart_by_sec : list Candle;
  ir_chart_by_min : list Candle;
  ir_chart_by_hour : list Candle;
  ir_lowest_sell_price : option Z;
  ir_highest_buy_price : option Z;
  ir_enable_share : bool
}.

(** [for _, order := range orders { FetchOrderRelation(order) }]: the
    first error, or the orders with their relations. *)
Fixpoint fetch_all (fetch : DbOrder -> gerror + DbOrder) (os : list DbOrder)
  : gerror + list DbOrder :=
  match os with
  | [] => inr []
  | o :: os' =>
      match fetch o with
      | inl e => inl e
      | inr o' =>
          match fetch_all fetch os' with
          | inl e => inl e
          | inr os'' => inr (o' :: os'')
          end
      end
  end.

(** The best price of an order book side: [sql.ErrNoRows] leaves it out. *)
Definition best_price (r : gerror + DbOrder) (what : string)
  : gerror + option Z :=
  match r with
  | inl e => if is_sentinel sql_ErrNoRows e then inr None else inl (GWrap what e)
  | inr o => inr (Some (dbo_price o))
  end.

(** [h.Info]: [cursor_v] is the query's [cursor] ("" when absent);
    [getTradeByID], [getTradesByLastID], [getOrdersByUserIDAndTradeIds],
    [fetch], [candles] (the three chart queries, by truncated time and
    format), [lowestSell] and [highestBuy] are the model's queries;
    [user] is the user of the request, if any. *)
Definition Info (cursor_v : string) (getTradeByID : Z -> gerror + TradeRow)
  (getTradesByLastID : Z -> gerror + list TradeRow) (user : option User)
  (getOrdersByUserIDAndTradeIds : Z -> list Z -> gerror + list DbOrder)
  (fetch : DbOrder -> gerror + DbOrder)
  (candles : Time -> string -> gerror + list Candle)
  (lowestSell highestBuy : gerror + DbOrder) : response InfoRes :=
  let parsed :=
    if String.eqb cursor_v "" then inr (0, time_unix0)
    else
      match ParseInt cursor_v with
      | inl k => inl (handleError (GWrap "cursor parse failed" (GNum k cursor_v)) 400)
      | inr id =>
          match getTradeByID id with
          | inl e =>
              if is_sentinel sql_ErrNoRows e then inr (id, time_unix0)
              else inl (handleError (GWrap "getTradeByID failed" e) 500)
          | inr t => inr (id, trade_created_at t)
          end
      end in
  match parsed with
  | inl resp => resp
  | inr (lastTradeID, lt) =>
  match getTradesByLastID lastTradeID with
  | inl e => handleError (GWrap "getTradesByLastID failed" e) 500
  | inr trades =>
  let tradesPart :=
    match last_opt trades with
    | None => inr (lastTradeID, None)
    | Some t =>
        match user with
        | None => inr (trade_id t, None)
        | Some u =>
            match getOrdersByUserIDAndTradeIds (user_id u) (map trade_id trades) with
            | inl e => inl e
            | inr orders =>
                match fetch_all fetch orders with
                | inl e => inl e
                | inr orders' => inr (trade_id t, Some orders')
                end
            end
        end
    end in
  match tradesPart with
  | inl e => handleError e 500
  | inr (cursor, traded) =>
  match candles (by_sec lt) "%Y-%m-%d %H:%i:%s"%string with
  | inl e => handleError (GWrap "model.GetCandlestickData by sec" e) 500
  | inr bySec =>
  match candles (by_min lt) "%Y-%m-%d %H:%i:00"%string with
  | inl e => handleError (GWrap "model.GetCandlestickData by min" e) 500
  | inr byMin =>
  match candles (by_hour lt) "%Y-%m-%d %H:00:00"%string with
  | inl e => handleError (GWrap "model.GetCandlestickData by hour" e) 500
  | inr byHour =>
  match best_price lowestSell "model.GetLowestSellOrder" with
  | inl e => handleError e 500
  | inr lsp =>
  match best_price highestBuy "model.GetHighestBuyOrder" with
  | inl e => handleError e 500
  | inr hbp =>
      ROk (mkInfoRes cursor traded bySec byMin byHour lsp hbp false)
  end end end end end end end end.

End Info.

End Quoting.

Arguments mkTradeRow {Time}.
Arguments trade_id {Time}.
Arguments trade_created_at {Time}.
Arguments mkInfoRes {Candle}.
Arguments ir_cursor {Candle}.
Arguments ir_traded_orders {Candle}.
Arguments ir_chart_by_sec {Candle}.
Arguments ir_chart_by_min {Candle}.
Arguments ir_chart_by_hour {Candle}.
Arguments ir_lowest_sell_price {Candle}.
Arguments ir_highest_buy_price {Candle}.
Arguments ir_enable_share {Candle}.

End Handler.

(** * Properties *)

(** ** int64 wrap-around *)

Lemma i64_add_l (x y : Z) : i64 (i64 x + y) = i64 (x + y).
Proof.
  unfold i64.
  replace ((x + 2 ^ 63) mod 2 ^ 64 - 2 ^ 63 + y + 2 ^ 63)
    with ((x + 2 ^ 63) mod 2 ^ 64 + y) by ring.
  rewrite Z.add_mod_idemp_l by lia.
  f_equal. f_equal. ring.
Qed.

Lemma i64_add_r (x y : Z) : i64 (x + i64 y) = i64 (x + y).
Proof.
  rewrite Z.add_comm, i64_add_l. f_equal. ring.
Qed.

Lemma i64_sub_r (x y : Z) : i64 (x - i64 y) = i64 (x - y).
Proof.
  unfold i64.
  replace (x - ((y + 2 ^ 63) mod 2 ^ 64 - 2 ^ 63) + 2 ^ 63)
    with (x + 2 ^ 63 + 2 ^ 63 - (y + 2 ^ 63) mod 2 ^ 64) by ring.
  rewrite Zminus_mod_idemp_r.
  f_equal. f_equal. ring.
Qed.

Lemma i64_idem (x : Z) : i64 (i64 x) = i64 x.
Proof.
  pose proof (i64_add_l x 0) as H. now rewrite !Z.add_0_r in H.
Qed.

(** ** Shapes of the state updates *)

Lemma merge_orders_length now srv os a :
  List.length (fst (merge_orders now srv os a)) = List.length os.
Proof.
  revert a; induction os as [|o rest IH]; intro a; simpl; [reflexivity|].
  destruct (Removed o).
  - specialize (IH a). destruct (merge_orders now srv rest a). simpl in *. congruence.
  - destruct (find_order (order_id o) srv) as [ro|].
    + specialize (IH (account a ro)).
      destruct (merge_orders now srv rest (account a ro)). simpl in *. congruence.
    + destruct (order_type o); [reflexivity|].
      specialize (IH a). destruct (merge_orders now srv rest a). simpl in *. congruence.
Qed.

Lemma UpdateOrders_frame now res i :
  let i' := fst (UpdateOrders now res i) in
  lastOrder i' = lastOrder i /\
  List.length (orders i') = List.length (orders i) /\
  taskStack i' = taskStack i.
Proof.
  unfold UpdateOrders.
  destruct res as [srv| |]; simpl; auto.
  destruct (check_latest (orders i) srv); simpl; auto.
  pose proof (merge_orders_length now srv (orders i) acc0) as Hl.
  destruct (merge_orders now srv (orders i) acc0) as [os r].
  simpl in Hl; destruct r; simpl; auto.
Qed.

Lemma Info_frame cfg retired now now' res i :
  let i' := fst (Info cfg retired now now' res i) in
  orders i' = orders i /\ lastOrder i' = lastOrder i.
Proof.
  unfold Info.
  destruct retired; simpl; auto.
  destruct (now <? pollingTime i); simpl; auto.
  destruct res; simpl; auto.
Qed.

Lemma UpdateOrderTask_closed cfg retired now Int63n ri :
  update_flag cfg now (base ri) = false ->
  UpdateOrderTask cfg retired now Int63n ri = (Ok None, ri).
Proof.
  intro H. unfold UpdateOrderTask.
  destruct retired; [reflexivity|]. now rewrite H.
Qed.

Lemma update_flag_closed_later cfg now now' i :
  orders i <> [] -> now <= now' ->
  update_flag cfg now i = false -> update_flag cfg now' i = false.
Proof.
  unfold update_flag. destruct (orders i); [congruence|].
  intros _ Hle H. apply Z.ltb_ge in H. apply Z.ltb_ge. lia.
Qed.

Lemma update_flag_frame cfg now i i' :
  orders i <> [] ->
  lastOrder i' = lastOrder i ->
  List.length (orders i') = List.length (orders i) ->
  orders i' <> [] /\ update_flag cfg now i' = update_flag cfg now i.
Proof.
  unfold update_flag. intros Hne Hlast Hlen.
  destruct (orders i) as [|o os]; [congruence|].
  destruct (orders i') as [|o' os']; simpl in Hlen; [discriminate|].
  split; [discriminate|]. now rewrite Hlast.
Qed.

(** The gate stays closed along the steps of an idle investor. *)
Lemma idle_steps_closed cfg st st' :
  idle_steps cfg st st' ->
  orders (base (snd st)) <> [] ->
  update_flag cfg (fst st) (base (snd st)) = false ->
  orders (base (snd st')) <> [] /\
  update_flag cfg (fst st') (base (snd st')) = false.
Proof.
  induction 1 as [st|st1 st2 st3 Hstep _ IH]; [auto|].
  intros Hne Hflag. apply IH.
  - inversion Hstep; subst; simpl in *.
    + assumption.
    + destruct (Info_frame cfg retired now now' res (base ri)) as [Ho _].
      simpl; now rewrite Ho.
    + destruct (UpdateOrders_frame now res (base ri)) as (Hl & Hlen & _).
      exact (proj1 (update_flag_frame cfg now _ _ Hne Hl Hlen)).
    + now rewrite UpdateOrderTask_closed.
  - inversion Hstep; subst; simpl in *.
    + eapply update_flag_closed_later; eauto.
    + destruct (Info_frame cfg retired now now' res (base ri)) as [Ho Hl].
      unfold update_flag in *; simpl; now rewrite Ho, Hl.
    + destruct (UpdateOrders_frame now res (base ri)) as (Hl & Hlen & _).
      rewrite (proj2 (update_flag_frame cfg now _ _ Hne Hl Hlen)). exact Hflag.
    + now rewrite UpdateOrderTask_closed.
Qed.

(** ** Info *)

(** C7: an info poll before [pollingTime] returns score 0 without error
    and leaves the state unchanged: market view, cursor and task queue. *)
Theorem Info_before_pollingTime cfg retired now now' res i :
  now < pollingTime i ->
  Info cfg retired now now' res i = (i, Ok 0).
Proof.
  intro H. unfold Info.
  destruct retired; [reflexivity|].
  now rewrite (proj2 (Z.ltb_lt _ _) H).
Qed.

Lemma Info_before_pollingTime_witness :
  let i := set_taskStack (newInvestorBase 10000 0) [TUpdateOrders] in
  let i := mkInvestorBase (defcredit i) (credit i) (resvedCredit i) (defisu i)
             (isu i) (resvedIsu i) (orders i) 90 80 85 true true 7 100 0
             (taskStack i) in
  0 < pollingTime i /\
  Info (mkConfig 1 1 1 1 1000 1000) false 0 1
    (Ok (mkInfoResponse 1 2 [3] [mkOrder 1 TradeTypeBuy 1 1 None None] 9)) i
  = (i, Ok 0).
Proof.
  intros i0 i. split.
  - simpl. lia.
  - apply Info_before_pollingTime. simpl. lia.
Defined.

(** ** Next *)

Lemma pushNextTask_fifo (ts : list task) (i : investorBase) :
  taskStack (fold_left pushNextTask ts i) = taskStack i ++ ts.
Proof.
  revert i; induction ts as [|t ts IH]; intro i; simpl.
  - now rewrite app_nil_r.
  - rewrite IH. simpl. now rewrite <- app_assoc.
Qed.

(** C8: [Next] on a retired investor returns no task; otherwise it returns
    the serial task [Info], then the queued tasks in the order they were
    pushed, then [FixNextTask], and empties the queue. *)
Theorem Next_serial (ri : RandomInvestor) (ts : list task) :
  Next true ri = (None, ri) /\
  Next false ri =
    (Some (TSerial ([TInfo] ++ taskStack (base ri) ++ [TFixNextTask])),
     set_base ri (set_taskStack (base ri) [])) /\
  taskStack (base (snd (Next false ri))) = [] /\
  (taskStack (base ri) = [] ->
   fst (Next false (set_base ri (fold_left pushNextTask ts (base ri)))) =
   Some (TSerial ([TInfo] ++ ts ++ [TFixNextTask]))).
Proof.
  split; [reflexivity|]. split; [|split].
  - reflexivity.
  - reflexivity.
  - intro Hnil. unfold Next, baseNext. simpl.
    rewrite pushNextTask_fifo, Hnil. simpl. reflexivity.
Qed.

(** ** UpdateOrders on an empty server list *)

(** C9: when the most recent local order is a sell and [GetOrders] returns
    an empty list, the check before the merge reads [orders[-1]]: the task
    panics (index out of range) instead of returning a consistency error.
    The witness reaches such a state from a fresh investor by one
    successful sell placement. *)
Theorem UpdateOrders_empty_server_panics now i lo :
  last_opt (orders i) = Some lo ->
  order_type lo = TradeTypeSell ->
  UpdateOrders now (Ok []) i = (i, Panic "index out of range [-1]").
Proof.
  intros Hlast Htype. unfold UpdateOrders, check_latest.
  now rewrite Hlast, Htype.
Qed.

Lemma UpdateOrders_empty_server_panics_witness :
  let o := mkOrder 1 TradeTypeSell 5 100 None None in
  let i := fst (AddOrder 10 (Ok o) (newInvestorBase 10000 10)) in
  snd (AddOrder 10 (Ok o) (newInvestorBase 10000 10)) = Ok tt /\
  UpdateOrders 20 (Ok []) i = (i, Panic "index out of range [-1]").
Proof.
  intros o i. split; [reflexivity|].
  apply (UpdateOrders_empty_server_panics 20 i o); reflexivity.
Defined.

(** ** The update gate of the policy *)

(** C10: the policy proposes a task only when the local order list is
    empty or the last placement is less than [OrderUpdateInterval] old.
    Otherwise it returns no task and leaves the investor unchanged (no
    branch runs, not even the re-pricing one), and the gate stays closed
    through any later polling, reconciliation, policy call and passing of
    time: the policy never proposes another order. *)
Theorem UpdateOrderTask_gate cfg retired now Int63n ri :
  (forall t, fst (UpdateOrderTask cfg retired now Int63n ri) = Ok (Some t) ->
   orders (base ri) = [] \/ now < lastOrder (base ri) + OrderUpdateInterval cfg) /\
  (orders (base ri) <> [] ->
   lastOrder (base ri) + OrderUpdateInterval cfg <= now ->
   UpdateOrderTask cfg retired now Int63n ri = (Ok None, ri) /\
   forall now' ri' retired' Int63n',
     idle_steps cfg (now, ri) (now', ri') ->
     UpdateOrderTask cfg retired' now' Int63n' ri' = (Ok None, ri')).
Proof.
  split.
  - intros t Ht.
    destruct (update_flag cfg now (base ri)) eqn:Hf.
    + unfold update_flag in Hf. destruct (orders (base ri)); [now left|].
      right. now apply Z.ltb_lt.
    + now rewrite UpdateOrderTask_closed in Ht.
  - intros Hne Hle.
    assert (Hf : update_flag cfg now (base ri) = false).
    { unfold update_flag. destruct (orders (base ri)); [congruence|].
      apply Z.ltb_ge. lia. }
    split; [now apply UpdateOrderTask_closed|].
    intros now' ri' retired' Int63n' Hsteps.
    destruct (idle_steps_closed cfg _ _ Hsteps Hne Hf) as [_ Hf'].
    now apply UpdateOrderTask_closed.
Qed.

(** ** The release branch of the policy *)

Lemma pick_release_some i os c dc o d :
  pick_release i os (Some (c, dc)) = Some (o, d) ->
  (o = c /\ d = dc /\ forall x, In x os -> mdiff i x <= dc) \/
  (exists pre post, os = pre ++ o :: post /\ d = mdiff i o /\ dc < d /\
     (forall x, In x pre -> mdiff i x < d) /\
     (forall x, In x post -> mdiff i x <= d)).
Proof.
  revert c dc; induction os as [|x rest IH]; intros c dc H; simpl in H.
  - left. inversion H; subst. split; [reflexivity|]. split; [reflexivity|].
    intros x [].
  - destruct (dc <? mdiff i x) eqn:Hlt.
    + apply Z.ltb_lt in Hlt.
      destruct (IH _ _ H) as [(Ho & Hd & Hle) | (pre & post & Hs & Hd & Hlt' & Hpre & Hpost)].
      * subst. right. exists [], rest.
        split; [reflexivity|]. split; [reflexivity|]. split; [exact Hlt|].
        split; [intros y []|exact Hle].
      * subst. right. exists (x :: pre), post.
        split; [reflexivity|]. split; [reflexivity|]. split; [lia|].
        split; [|exact Hpost].
        intros y [<- | Hy]; [lia | auto].
    + apply Z.ltb_ge in Hlt.
      destruct (IH _ _ H) as [(Ho & Hd & Hle) | (pre & post & Hs & Hd & Hlt' & Hpre & Hpost)].
      * subst. left. split; [reflexivity|]. split; [reflexivity|].
        intros y [<- | Hy]; [lia | auto].
      * subst. right. exists (x :: pre), post.
        split; [reflexivity|]. split; [reflexivity|]. split; [exact Hlt'|].
        split; [|exact Hpost].
        intros y [<- | Hy]; [lia | auto].
Qed.

(** [pick_release] returns the first order of maximal margin. *)
Lemma pick_release_first_max i os :
  os <> [] ->
  exists pre o post,
    pick_release i os None = Some (o, mdiff i o) /\
    os = pre ++ o :: post /\
    (forall x, In x pre -> mdiff i x < mdiff i o) /\
    (forall x, In x post -> mdiff i x <= mdiff i o).
Proof.
  destruct os as [|x rest]; [congruence|]. intros _. simpl.
  destruct (pick_release i rest (Some (x, mdiff i x))) as [[o d]|] eqn:H.
  - destruct (pick_release_some _ _ _ _ _ _ H)
      as [(-> & -> & Hle) | (pre & post & -> & -> & Hd & Hpre & Hpost)].
    + exists [], x, rest. split; [reflexivity|]. split; [reflexivity|].
      split; [intros y []|exact Hle].
    + exists (x :: pre), o, post. split; [reflexivity|]. split; [reflexivity|].
      split; [|exact Hpost].
      intros y [<- | Hy]; [lia | auto].
  - exfalso. clear -H. revert x H.
    induction rest as [|y rest IH]; intros x H; simpl in H; [discriminate|].
    destruct (mdiff i x <? mdiff i y); eauto.
Qed.

(** C4, as the code has it: for an investor that is not retired and whose
    local order list (all tracked orders, open or closed) has at least
    [OrderCap] entries, the policy proposes nothing while the gate is
    closed; while it is open it proposes the release ([RemoveOrder]) of
    the first order of maximal margin in that list, the margin of a sell
    being [price - highestBuyPrice] and of a buy [lowestSellPrice - price],
    and places nothing. *)
Theorem UpdateOrderTask_release cfg now Int63n ri :
  OrderCap <= Z.of_nat (List.length (orders (base ri))) ->
  (update_flag cfg now (base ri) = false ->
   UpdateOrderTask cfg false now Int63n ri = (Ok None, ri)) /\
  (update_flag cfg now (base ri) = true ->
   exists pre o post,
     UpdateOrderTask cfg false now Int63n ri = (Ok (Some (TRemoveOrder o)), ri) /\
     orders (base ri) = pre ++ o :: post /\
     (forall x, In x pre -> mdiff (base ri) x < mdiff (base ri) o) /\
     (forall x, In x post -> mdiff (base ri) x <= mdiff (base ri) o)).
Proof.
  intros Hcap. split; [apply UpdateOrderTask_closed|]. intros Hf.
  assert (Hne : orders (base ri) <> []).
  { intro Hn. rewrite Hn in Hcap. unfold OrderCap in Hcap. simpl in Hcap. lia. }
  destruct (pick_release_first_max (base ri) _ Hne) as (pre & o & post & Hp & Hsplit & Hpre & Hpost).
  exists pre, o, post. repeat split; auto.
  unfold UpdateOrderTask. simpl. rewrite Hf. simpl.
  rewrite (proj2 (Z.leb_le _ _) Hcap), Hp. reflexivity.
Qed.

Definition ord (id : Z) (ot : TradeType) (amount price : Z) : Order :=
  mkOrder id ot amount price None None.

Definition cfg_sample : Config := mkConfig 1 1 5 3 1000 10000.

(** An investor with the orders [os], the last placed at time 0. *)
Definition ri_with_orders (os : list Order) : RandomInvestor :=
  let b := newInvestorBase 10000 100 in
  mkRandomInvestor
    (mkInvestorBase (defcredit b) (credit b) 0 (defisu b) (isu b) 0
       os 100 90 95 true true 0 0 0 [])
    5 100.

(** An investor with five open orders, the last placed at time 0. *)
Definition ri_five_open : RandomInvestor :=
  ri_with_orders
    [ord 1 TradeTypeSell 1 120; ord 2 TradeTypeBuy 1 80;
     ord 3 TradeTypeSell 1 150; ord 4 TradeTypeBuy 1 50;
     ord 5 TradeTypeSell 1 110].

(** The same five open orders followed by a settled sell at 200, whose
    margin is the largest. *)
Definition ri_five_open_one_settled : RandomInvestor :=
  ri_with_orders
    (orders (base ri_five_open) ++
     [mkOrder 6 TradeTypeSell 1 200 (Some 10) (Some (mkTrade 200))]).

Lemma UpdateOrderTask_release_witness :
  OrderCap <= Z.of_nat (List.length (orders (base ri_five_open))) /\
  (update_flag cfg_sample 500 (base ri_five_open) = false ->
   UpdateOrderTask cfg_sample false 500 (fun _ => 0) ri_five_open
     = (Ok None, ri_five_open)) /\
  (update_flag cfg_sample 500 (base ri_five_open) = true ->
   exists pre o post,
     UpdateOrderTask cfg_sample false 500 (fun _ => 0) ri_five_open
       = (Ok (Some (TRemoveOrder o)), ri_five_open) /\
     orders (base ri_five_open) = pre ++ o :: post /\
     (forall x, In x pre -> mdiff (base ri_five_open) x < mdiff (base ri_five_open) o) /\
     (forall x, In x post -> mdiff (base ri_five_open) x <= mdiff (base ri_five_open) o)).
Proof.
  split; [vm_compute; discriminate|].
  apply UpdateOrderTask_release; vm_compute; discriminate.
Defined.

(** C4 fails in two ways.  With exactly [OrderCap] open orders and the
    last placement [OrderUpdateInterval] old or older, the policy proposes
    nothing.  With exactly [OrderCap] open orders, the gate open and a
    settled order of larger margin still tracked, it proposes releasing
    that settled order, not an open one. *)
Lemma UpdateOrderTask_release_counterexample :
  (List.length (filter (fun o => match order_closed_at o with
                                 | None => true | Some _ => false end)
                  (orders (base ri_five_open))) = 5%nat /\
   update_flag cfg_sample 20000 (base ri_five_open) = false /\
   UpdateOrderTask cfg_sample false 20000 (fun _ => 0) ri_five_open
     = (Ok None, ri_five_open)) /\
  (List.length (filter (fun o => match order_closed_at o with
                                 | None => true | Some _ => false end)
                  (orders (base ri_five_open_one_settled))) = 5%nat /\
   update_flag cfg_sample 500 (base ri_five_open_one_settled) = true /\
   UpdateOrderTask cfg_sample false 500 (fun _ => 0) ri_five_open_one_settled
     = (Ok (Some (TRemoveOrder
                   (mkOrder 6 TradeTypeSell 1 200 (Some 10) (Some (mkTrade 200))))),
        ri_five_open_one_settled)).
Proof. vm_compute. repeat split. Qed.

(** ** The first placement *)

(** C5, as the code has it: for an investor that is not retired, whose
    local order list is empty and whose available inventory
    [isu - resvedIsu] exceeds [unitamount], the policy proposes a sell of
    [unitamount] at [unitprice]. *)
Theorem UpdateOrderTask_first_sell cfg now Int63n ri :
  orders (base ri) = [] ->
  unitamount ri < i64 (isu (base ri) - resvedIsu (base ri)) ->
  UpdateOrderTask cfg false now Int63n ri =
    (Ok (Some (TAddOrder TradeTypeSell (unitamount ri) (unitprice ri))), ri).
Proof.
  intros Hnil Hisu. unfold UpdateOrderTask, update_flag. rewrite Hnil. simpl.
  now rewrite (proj2 (Z.ltb_lt _ _) Hisu).
Qed.

Lemma UpdateOrderTask_first_sell_witness :
  let ri := mkRandomInvestor (newInvestorBase 10000 100) 5 100 in
  orders (base ri) = [] /\
  unitamount ri < i64 (isu (base ri) - resvedIsu (base ri)) /\
  UpdateOrderTask cfg_sample false 0 (fun _ => 0) ri =
    (Ok (Some (TAddOrder TradeTypeSell 5 100)), ri).
Proof.
  intro ri. split; [reflexivity|]. split; [vm_compute; reflexivity|].
  apply (UpdateOrderTask_first_sell cfg_sample 0 (fun _ => 0) ri);
    [reflexivity | vm_compute; reflexivity].
Defined.

(** An investor whose only tracked order is a cancelled buy: no open
    order, 100 units available, the best ask below [unitprice]. *)
Definition ri_cancelled_only : RandomInvestor :=
  let b := newInvestorBase 10000 100 in
  mkRandomInvestor
    (mkInvestorBase (defcredit b) (credit b) 0 (defisu b) (isu b) 0
       [mkOrder 1 TradeTypeBuy 5 100 (Some 50) None]
       90 0 0 true true 0 0 0 [])
    5 100.

(** C5 fails: with zero open orders (one cancelled order tracked) and
    available inventory above [unitamount], the policy proposes a buy. *)
Lemma UpdateOrderTask_first_sell_counterexample :
  forallb Removed (orders (base ri_cancelled_only)) = true /\
  unitamount ri_cancelled_only
    < i64 (isu (base ri_cancelled_only) - resvedIsu (base ri_cancelled_only)) /\
  UpdateOrderTask cfg_sample false 100 (fun _ => 0) ri_cancelled_only
    = (Ok (Some (TAddOrder TradeTypeBuy 1 90)), ri_cancelled_only).
Proof. vm_compute. repeat split. Qed.

(** ** Placements refused for want of funds *)

(** C6, as the code has it: a placement whose [AddOrder] call fails with
    the insufficient-balance message completes without error and without
    recording an order, and yields the exec task's fixed score
    [PostOrdersScore], the score of a successful placement. *)
Theorem AddOrderTask_insufficient_balance cfg now e i :
  contains (error_message e) msg_insufficient_balance = true ->
  AddOrderTask cfg now (Err e) i = (i, Ok (PostOrdersScore cfg)).
Proof.
  intro H. unfold AddOrderTask, AddOrder. now rewrite H.
Qed.

Definition err_insufficient_balance : Error :=
  ErrClient ("POST /orders status 400: " ++ msg_insufficient_balance)%string.

Lemma AddOrderTask_insufficient_balance_witness :
  contains (error_message err_insufficient_balance) msg_insufficient_balance = true /\
  AddOrderTask cfg_sample 3 (Err err_insufficient_balance) (newInvestorBase 10000 0)
    = (newInvestorBase 10000 0, Ok 5).
Proof.
  split; [vm_compute; reflexivity|].
  apply (AddOrderTask_insufficient_balance cfg_sample 3 err_insufficient_balance).
  vm_compute; reflexivity.
Defined.

(** C6 fails when the placement reward is not 0: the refused placement
    scores [PostOrdersScore], here 5. *)
Lemma AddOrderTask_insufficient_balance_counterexample :
  snd (AddOrderTask cfg_sample 3 (Err err_insufficient_balance)
         (newInvestorBase 10000 0)) = Ok 5 /\
  snd (AddOrderTask cfg_sample 3 (Err err_insufficient_balance)
         (newInvestorBase 10000 0)) <> Ok 0.
Proof. vm_compute. split; [reflexivity | discriminate]. Qed.

(** ** Missing server orders *)

(** C3 at the input where the code slips: the only local order is an open
    sell and [GetOrders] returns an empty list.  The sell is missing from
    the server, yet the task panics in the check of the most recent order
    (the defect of [UpdateOrders_empty_server_panics]) instead of failing
    with the missing-sell error. *)
Theorem UpdateOrders_missing_sell_panics :
  let i := set_orders (newInvestorBase 10000 10) [ord 1 TradeTypeSell 5 100] in
  find_order 1 [] = None /\
  UpdateOrders 20 (Ok []) i = (i, Panic "index out of range [-1]").
Proof. split; reflexivity. Qed.

(** ** Balances after a reconciliation *)

Lemma merge_orders_errors now srv os a :
  match snd (merge_orders now srv os a) with
  | Err e => exists id, e = ErrSellOrderMissing id
  | Panic _ => False
  | Ok _ => True
  end.
Proof.
  revert a; induction os as [|o rest IH]; intro a; simpl; [exact I|].
  destruct (Removed o).
  - specialize (IH a). now destruct (merge_orders now srv rest a).
  - destruct (find_order (order_id o) srv) as [ro|].
    + specialize (IH (account a ro)). now destruct (merge_orders now srv rest _).
    + destruct (order_type o); [simpl; eauto|].
      specialize (IH a). now destruct (merge_orders now srv rest a).
Qed.

Definition with_balances (i : investorBase) (dc c rc di n rn : Z) : investorBase :=
  mkInvestorBase dc c rc di n rn (orders i) (lowestSellPrice i)
    (highestBuyPrice i) (latestTradePrice i) (isSignin i) (isStarted i)
    (lastCursor i) (pollingTime i) (lastOrder i) (taskStack i).

(** C1, as the code has it: [UpdateOrders] does not check the available
    balances.  Its outcome does not depend on the endowment, the balances
    or the reserved amounts, and every error it reports comes from
    [GetOrders] or from one of its two order-consistency checks (most
    recent order not reflected, missing sell order).  A successful run
    stores the balances the merge recomputed, whatever their sign:
    credit and inventory are the endowment plus the traded amounts, the
    reserved amounts are the merge's sums. *)
Theorem UpdateOrders_no_balance_check now res i dc c rc di n rn :
  snd (UpdateOrders now res (with_balances i dc c rc di n rn)) =
  snd (UpdateOrders now res i) /\
  match snd (UpdateOrders now res i) with
  | Err e =>
      res = Err e \/ e = ErrOrdersNotReflected \/
      exists id, e = ErrSellOrderMissing id
  | _ => True
  end /\
  (forall i', UpdateOrders now res i = (i', Ok tt) ->
   exists srv os a,
     res = Ok srv /\ merge_orders now srv (orders i) acc0 = (os, Ok a) /\
     i' = store_balances i os a /\
     credit i' = i64 (defcredit i + a_tradedCredit a) /\
     resvedCredit i' = a_resvedCredit a /\
     isu i' = i64 (defisu i + a_tradedIsu a) /\
     resvedIsu i' = a_resvedIsu a).
Proof.
  unfold UpdateOrders. simpl.
  destruct res as [srv|e|m]; simpl;
    [| split; [|split]; auto; discriminate | split; [|split]; auto; discriminate].
  destruct (check_latest (orders i) srv) as [u|e|m] eqn:Hc.
  - pose proof (merge_orders_errors now srv (orders i) acc0) as He.
    destruct (merge_orders now srv (orders i) acc0) as [os [a|e|m]] eqn:Hm;
      simpl in *; (split; [reflexivity|]); (split; [auto|]); try discriminate.
    intros i' [= <-]. exists srv, os, a. repeat split; first [exact Hm | reflexivity].
  - split; [reflexivity|]. split; [|discriminate]. right. left.
    unfold check_latest in Hc.
    destruct (last_opt (orders i)) as [lo|]; [|discriminate].
    destruct (order_type lo); [|discriminate].
    destruct (last_opt srv); [|discriminate].
    destruct (order_id lo =? order_id o); congruence.
  - split; [reflexivity|]. split; [exact I|discriminate].
Qed.

(** C1 fails: a fresh investor with credit 100 places a buy of 5 at 100
    (the initial buy of the policy is placed whatever the credit); the
    reconciliation that follows succeeds with available credit
    [100 - 500 < 0] and reports nothing. *)
Lemma UpdateOrders_no_balance_check_counterexample :
  let o := ord 1 TradeTypeBuy 5 100 in
  let i1 := fst (AddOrder 10 (Ok o) (newInvestorBase 100 0)) in
  let '(i2, r) := UpdateOrders 20 (Ok [o]) i1 in
  r = Ok tt /\ credit i2 - resvedCredit i2 = -400 /\ credit i2 - resvedCredit i2 < 0.
Proof. vm_compute. repeat split. Qed.

Lemma UpdateOrders_no_balance_check_witness :
  let o := ord 1 TradeTypeBuy 5 100 in
  let i1 := fst (AddOrder 10 (Ok o) (newInvestorBase 100 0)) in
  let i2 := fst (UpdateOrders 20 (Ok [o]) i1) in
  UpdateOrders 20 (Ok [o]) i1 = (i2, Ok tt) /\
  exists srv os a,
    Ok [o] = Ok srv /\ merge_orders 20 srv (orders i1) acc0 = (os, Ok a) /\
    i2 = store_balances i1 os a /\
    credit i2 = i64 (defcredit i1 + a_tradedCredit a) /\
    resvedCredit i2 = a_resvedCredit a /\
    isu i2 = i64 (defisu i1 + a_tradedIsu a) /\
    resvedIsu i2 = a_resvedIsu a.
Proof.
  intros o i1 i2.
  assert (H : UpdateOrders 20 (Ok [o]) i1 = (i2, Ok tt)) by (vm_compute; reflexivity).
  split; [exact H|].
  exact (proj2 (proj2 (UpdateOrders_no_balance_check 20 (Ok [o]) i1 0 0 0 0 0 0)) i2 H).
Defined.

(** *** The sums of the spec

    Written from the spec's words, to be compared with the accumulators of
    [UpdateOrders]: reserved credit is the notional of the open unsettled
    buys, reserved inventory the amount of the open unsettled sells, and a
    settled sell (buy) moves its amount out of (into) the inventory and its
    amount times the trade price into (out of) the credit. *)

Definition open_unsettled (o : Order) : bool :=
  match order_closed_at o, order_trade o with
  | None, None => true
  | _, _ => false
  end.

Fixpoint sumZ (f : Order -> Z) (os : list Order) : Z :=
  match os with
  | [] => 0
  | o :: os' => f o + sumZ f os'
  end.

Definition spec_reserved_credit (o : Order) : Z :=
  match open_unsettled o, order_type o with
  | true, TradeTypeBuy => order_amount o * order_price o
  | _, _ => 0
  end.

Definition spec_reserved_isu (o : Order) : Z :=
  match open_unsettled o, order_type o with
  | true, TradeTypeSell => order_amount o
  | _, _ => 0
  end.

Definition spec_traded_credit (o : Order) : Z :=
  match order_trade o, order_type o with
  | Some t, TradeTypeSell => order_amount o * trade_price t
  | Some t, TradeTypeBuy => - (order_amount o * trade_price t)
  | None, _ => 0
  end.

Definition spec_traded_isu (o : Order) : Z :=
  match order_trade o, order_type o with
  | Some t, TradeTypeSell => - order_amount o
  | Some t, TradeTypeBuy => order_amount o
  | None, _ => 0
  end.

(** What the exchange's order list is taken to be: every listed order is
    open or settled (a cancelled order is no longer listed), and an order
    once settled stays listed. *)
Definition server_lists_open_or_settled (srv : list Order) : Prop :=
  forall r, In r srv -> order_closed_at r = None \/ order_trade r <> None.

Definition server_keeps_settled (srv local : list Order) : Prop :=
  forall o, In o local -> order_trade o <> None -> find_order (order_id o) srv <> None.

Lemma find_order_In id srv r : find_order id srv = Some r -> In r srv.
Proof.
  induction srv as [|x srv IH]; simpl; [discriminate|].
  destruct (order_id x =? id); [intros [= ->]; now left | auto].
Qed.

Definition acc_in_range (a : acc) : Prop :=
  i64 (a_resvedCredit a) = a_resvedCredit a /\ i64 (a_resvedIsu a) = a_resvedIsu a /\
  i64 (a_tradedIsu a) = a_tradedIsu a /\ i64 (a_tradedCredit a) = a_tradedCredit a.

Lemma account_in_range a r : acc_in_range a -> acc_in_range (account a r).
Proof.
  intros (H1 & H2 & H3 & H4). unfold account, acc_in_range.
  destruct (order_trade r), (order_type r); simpl; rewrite ?i64_idem; auto.
Qed.

Ltac generalize_sums :=
  repeat match goal with
  | |- context [sumZ ?f ?l] => generalize (sumZ f l); intro
  end.

Lemma i64_add_mid (x y z : Z) : i64 (x + i64 y + z) = i64 (x + y + z).
Proof.
  replace (x + i64 y + z) with (x + z + i64 y) by ring.
  rewrite i64_add_r. f_equal. ring.
Qed.

Lemma i64_sub_mid (x y z : Z) : i64 (x - i64 y + z) = i64 (x - y + z).
Proof.
  replace (x - i64 y + z) with (x + z - i64 y) by ring.
  rewrite i64_sub_r. f_equal. ring.
Qed.

Ltac close_i64 :=
  rewrite i64_add_l; rewrite ?i64_add_mid, ?i64_sub_mid; f_equal; ring.

Lemma merge_orders_sums now srv os a os' a' :
  server_lists_open_or_settled srv ->
  server_keeps_settled srv os ->
  acc_in_range a ->
  merge_orders now srv os a = (os', Ok a') ->
  a_resvedCredit a' = i64 (a_resvedCredit a + sumZ spec_reserved_credit os') /\
  a_resvedIsu a' = i64 (a_resvedIsu a + sumZ spec_reserved_isu os') /\
  a_tradedCredit a' = i64 (a_tradedCredit a + sumZ spec_traded_credit os') /\
  a_tradedIsu a' = i64 (a_tradedIsu a + sumZ spec_traded_isu os').
Proof.
  intros Hsrv. revert a os'.
  induction os as [|o rest IH]; intros a os' Hkeep Ha Hm; simpl in Hm.
  - inversion Hm; subst. destruct Ha as (H1 & H2 & H3 & H4). simpl.
    rewrite !Z.add_0_r. auto.
  - assert (Hkeep' : server_keeps_settled srv rest)
      by (intros x Hx; apply Hkeep; now right).
    destruct (Removed o) eqn:Hrem.
    + destruct (merge_orders now srv rest a) as [rest' r] eqn:Hr.
      inversion Hm; subst.
      destruct (IH a rest' Hkeep' Ha Hr) as (E1 & E2 & E3 & E4).
      unfold Removed in Hrem.
      destruct (order_closed_at o) eqn:Hc; [|discriminate].
      destruct (order_trade o) eqn:Ht; [discriminate|].
      simpl. unfold spec_reserved_credit, spec_reserved_isu, spec_traded_credit,
        spec_traded_isu, open_unsettled. rewrite Hc, Ht.
      rewrite E1, E2, E3, E4. repeat split; f_equal; lia.
    + destruct (find_order (order_id o) srv) as [ro|] eqn:Hf.
      * destruct (merge_orders now srv rest (account a ro)) as [rest' r] eqn:Hr.
        inversion Hm; subst.
        destruct (IH (account a ro) rest' Hkeep' (account_in_range a ro Ha) Hr)
          as (E1 & E2 & E3 & E4).
        destruct (Hsrv ro (find_order_In _ _ _ Hf)) as [Hc|Ht].
        -- simpl. rewrite E1, E2, E3, E4. clear E1 E2 E3 E4.
           generalize_sums.
           unfold account, spec_reserved_credit, spec_reserved_isu,
             spec_traded_credit, spec_traded_isu, open_unsettled.
           rewrite Hc.
           destruct (order_trade ro), (order_type ro); simpl;
             repeat split; close_i64.
        -- simpl. rewrite E1, E2, E3, E4. clear E1 E2 E3 E4.
           generalize_sums.
           unfold account, spec_reserved_credit, spec_reserved_isu,
             spec_traded_credit, spec_traded_isu, open_unsettled.
           destruct (order_trade ro) as [t|]; [|congruence].
           destruct (order_closed_at ro), (order_type ro); simpl;
             repeat split; close_i64.
      * destruct (order_type o) eqn:Hty; [discriminate|].
        destruct (merge_orders now srv rest a) as [rest' r] eqn:Hr.
        inversion Hm; subst.
        destruct (IH a rest' Hkeep' Ha Hr) as (E1 & E2 & E3 & E4).
        assert (Ht : order_trade o = None).
        { destruct (order_trade o) eqn:Ht; [|reflexivity].
          exfalso. apply (Hkeep o (or_introl eq_refl)); congruence. }
        simpl. unfold spec_reserved_credit, spec_reserved_isu, spec_traded_credit,
          spec_traded_isu, open_unsettled, close_order. simpl. rewrite Ht.
        rewrite E1, E2, E3, E4. repeat split; f_equal; lia.
Qed.

Lemma acc0_in_range : acc_in_range acc0.
Proof. repeat split. Qed.

Definition settled (o : Order) (price : Z) (closed : Z) : Order :=
  mkOrder (order_id o) (order_type o) (order_amount o) (order_price o)
    (Some closed) (Some (mkTrade price)).

(** C2, with what the exchange's order list is taken to be: after a
    successful [UpdateOrders] the reserved amounts are the sums, over the
    local orders as merged, of the open unsettled buys' notional and the
    open unsettled sells' amount; credit and inventory are the endowment
    plus the net effect of the settled orders (int64 arithmetic).  A buy of
    5 placed by an investor with credit 10000 and no inventory and settled
    at 90 reconciles to inventory 5 and credit 9550. *)
Theorem UpdateOrders_recomputes :
  (forall now srv i i',
   server_lists_open_or_settled srv ->
   server_keeps_settled srv (orders i) ->
   UpdateOrders now (Ok srv) i = (i', Ok tt) ->
   defcredit i' = defcredit i /\ defisu i' = defisu i /\
   resvedCredit i' = i64 (sumZ spec_reserved_credit (orders i')) /\
   resvedIsu i' = i64 (sumZ spec_reserved_isu (orders i')) /\
   credit i' = i64 (defcredit i + sumZ spec_traded_credit (orders i')) /\
   isu i' = i64 (defisu i + sumZ spec_traded_isu (orders i'))) /\
  (let o := ord 1 TradeTypeBuy 5 100 in
   let i1 := fst (AddOrder 10 (Ok o) (newInvestorBase 10000 0)) in
   let '(i2, r) := UpdateOrders 30 (Ok [settled o 90 20]) i1 in
   r = Ok tt /\ isu i2 = 5 /\ credit i2 = 9550).
Proof.
  split; [|vm_compute; repeat split].
  intros now srv i i' Hsrv Hkeep H. unfold UpdateOrders in H.
  destruct (check_latest (orders i) srv); try discriminate.
  destruct (merge_orders now srv (orders i) acc0) as [os [ac| |]] eqn:Hm;
    try discriminate.
  inversion H; subst; clear H. simpl.
  destruct (merge_orders_sums now srv (orders i) acc0 os ac Hsrv Hkeep
              acc0_in_range Hm) as (E1 & E2 & E3 & E4).
  simpl in E1, E2, E3, E4.
  rewrite E1, E2, E3, E4, i64_add_r, i64_add_r.
  repeat split; reflexivity.
Qed.

Lemma UpdateOrders_recomputes_witness :
  let o := ord 1 TradeTypeBuy 5 100 in
  let i1 := fst (AddOrder 10 (Ok o) (newInvestorBase 10000 0)) in
  let i2 := fst (UpdateOrders 30 (Ok [settled o 90 20]) i1) in
  server_lists_open_or_settled [settled o 90 20] /\
  server_keeps_settled [settled o 90 20] (orders i1) /\
  UpdateOrders 30 (Ok [settled o 90 20]) i1 = (i2, Ok tt) /\
  credit i2 = i64 (defcredit i1 + sumZ spec_traded_credit (orders i2)).
Proof.
  intros o i1 i2.
  assert (H1 : server_lists_open_or_settled [settled o 90 20]).
  { intros r [<- | []]. right. discriminate. }
  assert (H2 : server_keeps_settled [settled o 90 20] (orders i1)).
  { intros x [<- | []]. simpl. discriminate. }
  assert (H3 : UpdateOrders 30 (Ok [settled o 90 20]) i1 = (i2, Ok tt))
    by reflexivity.
  split; [exact H1|]. split; [exact H2|]. split; [exact H3|].
  exact (proj1 (proj2 (proj2 (proj2 (proj2
           (proj1 UpdateOrders_recomputes 30 _ i1 i2 H1 H2 H3)))))).
Defined.

(** C2 fails when the server lists a cancelled order: the local open buy
    comes back closed without a trade, and the reconciliation still counts
    its notional (500) as reserved credit, while the order is no longer
    open. *)
Lemma UpdateOrders_recomputes_counterexample :
  let o := ord 1 TradeTypeBuy 5 100 in
  let i1 := fst (AddOrder 10 (Ok o) (newInvestorBase 10000 0)) in
  let '(i2, r) :=
    UpdateOrders 30 (Ok [mkOrder 1 TradeTypeBuy 5 100 (Some 20) None]) i1 in
  r = Ok tt /\ resvedCredit i2 = 500 /\
  sumZ spec_reserved_credit (orders i2) = 0.
Proof. vm_compute. repeat split. Qed.

(** ** Witnesses of the theorems with inner hypotheses *)

Lemma Next_serial_witness :
  let ri := mkRandomInvestor (newInvestorBase 10000 0) 5 100 in
  taskStack (base ri) = [] /\
  fst (Next false (set_base ri (fold_left pushNextTask [TUpdateOrders; TAddOrder TradeTypeBuy 5 100] (base ri))))
    = Some (TSerial [TInfo; TUpdateOrders; TAddOrder TradeTypeBuy 5 100; TFixNextTask]).
Proof.
  intro ri. split; [reflexivity|].
  exact (proj2 (proj2 (proj2 (Next_serial ri [TUpdateOrders; TAddOrder TradeTypeBuy 5 100]))) eq_refl).
Defined.

Lemma UpdateOrderTask_gate_witness :
  orders (base ri_five_open) <> [] /\
  lastOrder (base ri_five_open) + OrderUpdateInterval cfg_sample <= 20000 /\
  UpdateOrderTask cfg_sample false 20000 (fun _ => 0) ri_five_open = (Ok None, ri_five_open).
Proof.
  assert (Hne : orders (base ri_five_open) <> []) by discriminate.
  assert (Hle : lastOrder (base ri_five_open) + OrderUpdateInterval cfg_sample <= 20000)
    by (simpl; lia).
  split; [exact Hne|]. split; [exact Hle|].
  exact (proj1 (proj2 (UpdateOrderTask_gate cfg_sample false 20000 (fun _ => 0) ri_five_open) Hne Hle)).
Defined.

(** * Further properties of the investor *)

(** ** RemoveOrder *)

Lemma close_first_split id now pre o post :
  Forall (fun x => order_id x <> id) pre ->
  order_id o = id ->
  close_first id now (pre ++ o :: post) = pre ++ close_order o now :: post.
Proof.
  intros Hpre Ho. induction Hpre as [|x pre Hx _ IH]; simpl.
  - now rewrite Ho, Z.eqb_refl.
  - rewrite IH. apply Z.eqb_neq in Hx. now rewrite Hx.
Qed.

Lemma close_first_absent id now os :
  Forall (fun x => order_id x <> id) os -> close_first id now os = os.
Proof.
  induction 1 as [|x os Hx _ IH]; simpl; [reflexivity|].
  apply Z.eqb_neq in Hx. now rewrite Hx, IH.
Qed.

(** A successful cancellation marks the first local order with the
    cancelled id closed at the current time and leaves every other local
    order as it was (all of them when no local order has that id); it
    scores [DeleteOrdersScore]. *)
Theorem RemoveOrder_success cfg now order i :
  Removed order = false ->
  (forall pre o post,
     orders i = pre ++ o :: post ->
     order_id o = order_id order ->
     Forall (fun x => order_id x <> order_id order) pre ->
     RemoveOrder cfg now DeleteOk order i =
       (set_orders i (pre ++ close_order o now :: post), Ok (DeleteOrdersScore cfg))) /\
  (Forall (fun x => order_id x <> order_id order) (orders i) ->
   RemoveOrder cfg now DeleteOk order i = (set_orders i (orders i), Ok (DeleteOrdersScore cfg))).
Proof.
  intro Hr. unfold RemoveOrder. rewrite Hr. split.
  - intros pre o post Hs Ho Hpre. rewrite Hs, close_first_split; auto.
  - intro Hall. now rewrite close_first_absent.
Qed.

Lemma RemoveOrder_success_witness :
  let order := ord 2 TradeTypeBuy 1 80 in
  let i := base ri_five_open in
  Removed order = false /\
  RemoveOrder cfg_sample 42 DeleteOk order i =
    (set_orders i ([ord 1 TradeTypeSell 1 120] ++ close_order order 42 ::
                   [ord 3 TradeTypeSell 1 150; ord 4 TradeTypeBuy 1 50;
                    ord 5 TradeTypeSell 1 110]), Ok 3).
Proof.
  intros order i. split; [reflexivity|].
  apply (proj1 (RemoveOrder_success cfg_sample 42 order i eq_refl)).
  - reflexivity.
  - reflexivity.
  - repeat constructor. simpl. discriminate.
Defined.

(** A cancellation of an order already removed locally does not reach the
    server, and a cancellation the server answers with 404 is not an
    error: both score 0 and leave the investor unchanged. *)
Theorem RemoveOrder_benign cfg now res order i msg :
  Removed order = true \/ res = DeleteStatusErr 404 msg ->
  RemoveOrder cfg now res order i = (i, Ok 0).
Proof.
  intros [H | ->]; unfold RemoveOrder.
  - now rewrite H.
  - now destruct (Removed order).
Qed.

Lemma RemoveOrder_benign_witness :
  let order := ord 2 TradeTypeBuy 1 80 in
  (Removed order = true \/ DeleteStatusErr 404 "already closed" =
     DeleteStatusErr 404 "already closed") /\
  RemoveOrder cfg_sample 42 (DeleteStatusErr 404 "already closed") order
    (base ri_five_open) = (base ri_five_open, Ok 0).
Proof.
  intro order. split; [right; reflexivity|].
  apply (RemoveOrder_benign cfg_sample 42 _ order (base ri_five_open) "already closed").
  right. reflexivity.
Defined.

(** ** Signup and Signin *)

(** Once a [Signin] has succeeded, [Signup] is a no-op scored 0, whatever
    the server would answer. *)
Theorem Signup_after_Signin SigninScore SignupScore r res i :
  r = Ok tt ->
  Signup SignupScore res (fst (Signin SigninScore r i)) =
    (fst (Signin SigninScore r i), Ok 0).
Proof. intros ->. reflexivity. Qed.

Lemma Signup_after_Signin_witness :
  Ok tt = Ok tt /\
  Signup 1 (Err (ErrClient "connection refused"))
    (fst (Signin 1 (Ok tt) (newInvestorBase 100 0))) =
    (fst (Signin 1 (Ok tt) (newInvestorBase 100 0)), Ok 0).
Proof.
  split; [reflexivity|].
  apply (Signup_after_Signin 1 1 (Ok tt)). reflexivity.
Defined.

(** A [Signup] refused because the bank id already exists scores as a
    successful one; any other refusal is returned as the task's error.
    Neither changes the investor. *)
Theorem Signup_conflict_is_success SignupScore e i :
  isSignin i = false ->
  Signup SignupScore (Err e) i =
    (i, if contains (error_message e) msg_bank_id_exists then Ok SignupScore
        else Err e).
Proof.
  intro H. unfold Signup. rewrite H.
  now destruct (contains (error_message e) msg_bank_id_exists).
Qed.

Lemma Signup_conflict_is_success_witness :
  isSignin (newInvestorBase 100 0) = false /\
  Signup 1 (Err (ErrClient "POST /signup: bank_id already exists"))
    (newInvestorBase 100 0) = (newInvestorBase 100 0, Ok 1).
Proof.
  split; [reflexivity|].
  rewrite (Signup_conflict_is_success 1 (ErrClient "POST /signup: bank_id already exists") (newInvestorBase 100 0) eq_refl). vm_compute. reflexivity.
Defined.

(** ** AddOrder *)

(** A successful placement appends the order at the end of the local list
    (it becomes the most recent order, the one the next reconciliation
    checks), sets [lastOrder] to now, which opens the policy's gate for
    [OrderUpdateInterval], and changes no balance. *)
Theorem AddOrder_success cfg now o i :
  let '(i', r) := AddOrder now (Ok o) i in
  r = Ok tt /\ orders i' = orders i ++ [o] /\ last_opt (orders i') = Some o /\
  lastOrder i' = now /\ credit i' = credit i /\ isu i' = isu i /\
  resvedCredit i' = resvedCredit i /\ resvedIsu i' = resvedIsu i /\
  taskStack i' = taskStack i /\
  forall now', now' < now + OrderUpdateInterval cfg -> update_flag cfg now' i' = true.
Proof.
  simpl. repeat split.
  - induction (orders i) as [|x os IH]; [reflexivity|].
    simpl. rewrite IH. destruct os; reflexivity.
  - intros now' Hlt. unfold update_flag. simpl.
    destruct (orders i ++ [o]) eqn:E; [now destruct (orders i)|].
    now apply Z.ltb_lt.
Qed.

(** A placement failing with any error other than the insufficient-balance
    message fails the task with that error and changes nothing. *)
Theorem AddOrder_error cfg now e i :
  contains (error_message e) msg_insufficient_balance = false ->
  AddOrderTask cfg now (Err e) i = (i, Err e).
Proof. intro H. unfold AddOrderTask, AddOrder. now rewrite H. Qed.

Lemma AddOrder_error_witness :
  contains (error_message (ErrClient "POST /orders status 500")) msg_insufficient_balance = false /\
  AddOrderTask cfg_sample 1 (Err (ErrClient "POST /orders status 500")) (newInvestorBase 100 0)
    = (newInvestorBase 100 0, Err (ErrClient "POST /orders status 500")).
Proof.
  split; [vm_compute; reflexivity|].
  apply AddOrder_error. vm_compute. reflexivity.
Defined.

(** ** Info *)

(** An info poll due at [now] updates the market view (best prices, last
    chart close, cursor), queues a reconciliation exactly when the
    response lists traded orders, and sets [pollingTime] to [now'] plus
    [PollingInterval], so that every later poll before that time is a
    no-op; it changes no order and no balance.  A failed poll changes
    nothing, in particular not [pollingTime]: the next poll retries. *)
Theorem Info_poll cfg now now' res i :
  pollingTime i <= now ->
  let '(i', r) := Info cfg false now now' res i in
  match res with
  | Ok info =>
      r = Ok (GetInfoScore cfg) /\
      pollingTime i' = now' + PollingInterval cfg /\
      lastCursor i' = info_cursor info /\
      lowestSellPrice i' = info_lowest_sell_price info /\
      highestBuyPrice i' = info_highest_buy_price info /\
      latestTradePrice i' =
        match last_opt (info_chart_by_hour_close info) with
        | Some c => c | None => latestTradePrice i end /\
      taskStack i' = taskStack i ++
        (if info_traded_orders info then [] else [TUpdateOrders]) /\
      orders i' = orders i /\ credit i' = credit i /\ isu i' = isu i /\
      resvedCredit i' = resvedCredit i /\ resvedIsu i' = resvedIsu i /\
      (forall now2 now2' res2, now2 < now' + PollingInterval cfg ->
         Info cfg false now2 now2' res2 i' = (i', Ok 0))
  | Err e => i' = i /\ r = Err e
  | Panic m => i' = i /\ r = Panic m
  end.
Proof.
  intro Hp. unfold Info.
  rewrite (proj2 (Z.ltb_ge _ _) Hp).
  destruct res as [info| e | m]; [|auto|auto].
  repeat split.
  - destruct (info_traded_orders info); simpl; [now rewrite app_nil_r|reflexivity].
  - intros now2 now2' res2 Hlt. simpl. now rewrite (proj2 (Z.ltb_lt _ _) Hlt).
Qed.

Lemma Info_poll_witness :
  pollingTime (newInvestorBase 100 0) <= 5 /\
  Info cfg_sample false 5 6
    (Ok (mkInfoResponse 90 80 [85] [ord 7 TradeTypeBuy 1 85] 3))
    (newInvestorBase 100 0) =
    (set_taskStack
       (mkInvestorBase 100 100 0 0 0 0 [] 90 80 85 false false 3 1006 0 [])
       [TUpdateOrders], Ok 1).
Proof.
  split; [simpl; lia|].
  pose proof (Info_poll cfg_sample 5 6
    (Ok (mkInfoResponse 90 80 [85] [ord 7 TradeTypeBuy 1 85] 3))
    (newInvestorBase 100 0) ltac:(simpl; lia)) as H.
  simpl in H. reflexivity.
Defined.

(** ** The policy's frame *)

Lemma UpdateOrderTask_keeps cfg retired now Int63n ri :
  let '(t, ri') := UpdateOrderTask cfg retired now Int63n ri in
  base ri' = base ri /\ unitamount ri' = unitamount ri /\
  (t <> Ok None -> ri' = ri).
Proof.
  unfold UpdateOrderTask.
  destruct retired; [auto|].
  destruct (negb (update_flag cfg now (base ri))); [auto|].
  destruct (OrderCap <=? _).
  { destruct (pick_release _ _ _) as [[o d]|]; auto. }
  repeat match goal with
  | |- context [if ?c then _ else _] => destruct c
  | |- context [match rand_Int63n ?f ?n with _ => _ end] => destruct (rand_Int63n f n)
  end; simpl; repeat split; auto; congruence.
Qed.

(** The policy never changes the investor's state nor its unit amount:
    when it proposes a task it changes nothing at all, and when it
    proposes none the only change it can make is the unit price. *)
Theorem UpdateOrderTask_frame cfg retired now Int63n ri :
  let '(t, ri') := UpdateOrderTask cfg retired now Int63n ri in
  base ri' = base ri /\ unitamount ri' = unitamount ri /\
  (t <> Ok None -> ri' = ri).
Proof. exact (UpdateOrderTask_keeps cfg retired now Int63n ri). Qed.

(** ** FixNextTask *)

(** The policy never returns an error, and its only panic is the one of
    [rand.Int63n]. *)
Lemma UpdateOrderTask_outcome cfg retired now Int63n ri :
  match fst (UpdateOrderTask cfg retired now Int63n ri) with
  | Ok _ => True
  | Err _ => False
  | Panic m => m = msg_Int63n
  end.
Proof.
  unfold UpdateOrderTask.
  destruct retired; [exact I|].
  destruct (negb (update_flag cfg now (base ri))); [exact I|].
  destruct (OrderCap <=? _).
  { destruct (pick_release _ _ _) as [[o d]|]; exact I. }
  repeat match goal with
  | |- context [if ?c then _ else _] => destruct c
  | |- context [match rand_Int63n ?f ?n with _ => _ end] => destruct (rand_Int63n f n)
  end; simpl; auto.
Qed.


(** [FixNextTask] runs the policy.  When the policy returns, the task
    scores 0 and, if a task is proposed, queues it followed by a
    reconciliation; the next tick then runs [Info], the tasks queued
    before, the proposed task, [UpdateOrders] and [FixNextTask] again, in
    this order, and with no task proposed the queue is left as it was.
    When [rand.Int63n] panics in the policy, the task panics with it. *)
Theorem FixNextTask_then_Next cfg now Int63n ri :
  match fst (UpdateOrderTask cfg false now Int63n ri) with
  | Ok t =>
      snd (FixNextTask cfg false now Int63n ri) = Ok 0 /\
      fst (Next false (fst (FixNextTask cfg false now Int63n ri))) =
        Some (TSerial ([TInfo] ++ taskStack (base ri) ++
                       match t with Some t => [t; TUpdateOrders] | None => [] end ++
                       [TFixNextTask]))
  | Panic m =>
      m = msg_Int63n /\ snd (FixNextTask cfg false now Int63n ri) = Panic m
  | Err _ => False
  end.
Proof.
  pose proof (UpdateOrderTask_keeps cfg false now Int63n ri) as Hf.
  pose proof (UpdateOrderTask_outcome cfg false now Int63n ri) as Ho.
  unfold FixNextTask.
  destruct (UpdateOrderTask cfg false now Int63n ri) as [[[t|]|e|m] ri']; simpl in Ho |- *.
  - destruct Hf as (_ & _ & Hsome). rewrite (Hsome ltac:(discriminate)).
    split; [reflexivity|]. simpl. rewrite <- !app_assoc. reflexivity.
  - destruct Hf as (Hb & _). split; [reflexivity|]. simpl. now rewrite Hb.
  - exact Ho.
  - split; [exact Ho|reflexivity].
Qed.

(** ** UpdateOrders keeps the identity of the local orders *)

Lemma find_order_id id srv r : find_order id srv = Some r -> order_id r = id.
Proof.
  induction srv as [|x srv IH]; simpl; [discriminate|].
  destruct (order_id x =? id) eqn:E; [intros [= <-]; now apply Z.eqb_eq | auto].
Qed.

(** How the merge loop relates a local order to the order it leaves in
    its place. *)
Definition merged_from (now : Z) (srv : list Order) (o o' : Order) : Prop :=
  order_id o' = order_id o /\
  (Removed o = true -> o' = o) /\
  (o' = o \/ o' = close_order o now \/ find_order (order_id o) srv = Some o').

Lemma merged_from_refl now srv o : merged_from now srv o o.
Proof. repeat split; auto. Qed.

Lemma merge_orders_forall2 now srv os a :
  Forall2 (merged_from now srv) os (fst (merge_orders now srv os a)).
Proof.
  revert a; induction os as [|o rest IH]; intro a; simpl; [constructor|].
  destruct (Removed o) eqn:Hrem.
  - specialize (IH a). destruct (merge_orders now srv rest a). simpl in *.
    constructor; [apply merged_from_refl|exact IH].
  - destruct (find_order (order_id o) srv) as [ro|] eqn:Hf.
    + specialize (IH (account a ro)).
      destruct (merge_orders now srv rest (account a ro)). simpl in *.
      constructor; [|exact IH]. split; [exact (find_order_id _ _ _ Hf)|].
      split; [congruence|]. auto.
    + destruct (order_type o).
      * simpl. constructor; [apply merged_from_refl|].
        clear IH. induction rest; constructor; auto using merged_from_refl.
      * specialize (IH a). destruct (merge_orders now srv rest a). simpl in *.
        constructor; [|exact IH]. repeat split; [congruence|]. auto.
Qed.

(** Whatever the outcome of a reconciliation (success, consistency error,
    failed call or panic), the local order list keeps its length and the
    id of every position; an order removed locally (cancelled) stays as it
    is; every other order is left as it is, closed at [now], or replaced
    by the server's order of the same id. *)
Theorem UpdateOrders_keeps_ids now res i :
  Forall2 (merged_from now (match res with Ok srv => srv | _ => [] end))
    (orders i) (orders (fst (UpdateOrders now res i))).
Proof.
  assert (Hrefl : forall s l, Forall2 (merged_from now s) l l).
  { intros s l. induction l; constructor; auto using merged_from_refl. }
  unfold UpdateOrders. destruct res as [srv| |]; simpl; auto.
  destruct (check_latest (orders i) srv); simpl; auto.
  pose proof (merge_orders_forall2 now srv (orders i) acc0) as H.
  destruct (merge_orders now srv (orders i) acc0) as [os r].
  destruct r; exact H.
Qed.

(** ** Reconciling twice against the same server list *)

Lemma merge_orders_stable now now2 srv os a os' a' :
  server_lists_open_or_settled srv ->
  server_keeps_settled srv os ->
  merge_orders now srv os a = (os', Ok a') ->
  merge_orders now2 srv os' a = (os', Ok a').
Proof.
  intros Hsrv. revert a os'.
  induction os as [|o rest IH]; intros a os' Hkeep Hm; simpl in Hm.
  - inversion Hm; subst. reflexivity.
  - assert (Hkeep' : server_keeps_settled srv rest)
      by (intros x Hx; apply Hkeep; now right).
    destruct (Removed o) eqn:Hrem.
    + destruct (merge_orders now srv rest a) as [rest' r] eqn:Hr.
      inversion Hm; subst. simpl. rewrite Hrem.
      rewrite (IH a rest' Hkeep' Hr). reflexivity.
    + destruct (find_order (order_id o) srv) as [ro|] eqn:Hf.
      * destruct (merge_orders now srv rest (account a ro)) as [rest' r] eqn:Hr.
        inversion Hm; subst. simpl.
        assert (Hro : Removed ro = false).
        { unfold Removed.
          destruct (Hsrv ro (find_order_In _ _ _ Hf)) as [-> | Ht]; [reflexivity|].
          destruct (order_trade ro); [|congruence].
          now destruct (order_closed_at ro). }
        rewrite Hro, (find_order_id _ _ _ Hf), Hf.
        rewrite (IH _ rest' Hkeep' Hr). reflexivity.
      * destruct (order_type o) eqn:Hty; [discriminate|].
        destruct (merge_orders now srv rest a) as [rest' r] eqn:Hr.
        inversion Hm; subst. simpl.
        assert (Ht : order_trade o = None).
        { destruct (order_trade o) eqn:Ht; [|reflexivity].
          exfalso. apply (Hkeep o (or_introl eq_refl)); congruence. }
        unfold Removed at 1. simpl. rewrite Ht.
        rewrite (IH a rest' Hkeep' Hr). reflexivity.
Qed.

Definition same_id_type (o o' : Order) : Prop :=
  order_id o' = order_id o /\ order_type o' = order_type o.

Lemma last_opt_forall2 l l' :
  Forall2 same_id_type l l' ->
  (last_opt l = None /\ last_opt l' = None) \/
  exists x x', last_opt l = Some x /\ last_opt l' = Some x' /\ same_id_type x x'.
Proof.
  induction 1 as [|x x' l l' Hx Hl IH]; [now left|].
  right. destruct Hl as [|y y' l l' Hy Hl'].
  - exists x, x'. auto.
  - destruct IH as [[H _] | (z & z' & Hz & Hz' & Hzz)].
    + exfalso. clear -H. revert y H.
      induction l as [|w l IHl]; intros y H; [discriminate|]. exact (IHl w H).
    + exists z, z'. split; [|split]; auto.
Qed.

Lemma check_latest_same_last local local' srv :
  Forall2 same_id_type local local' ->
  check_latest local' srv = check_latest local srv.
Proof.
  intro H. unfold check_latest.
  destruct (last_opt_forall2 _ _ H) as [[-> ->] | (x & x' & -> & -> & Hid & Hty)];
    [reflexivity|].
  rewrite Hty, Hid. reflexivity.
Qed.

Lemma merged_same_id_type now srv os os' :
  Forall (fun o => forall ro, find_order (order_id o) srv = Some ro ->
                   order_type ro = order_type o) os ->
  Forall2 (merged_from now srv) os os' ->
  Forall2 same_id_type os os'.
Proof.
  intros Hty H. induction H as [|o o' os os' (Hid & _ & Hw) _ IH]; [constructor|].
  inversion Hty; subst. constructor; [|auto].
  split; [exact Hid|].
  destruct Hw as [-> | [-> | Hf]]; auto.
Qed.

(** With an exchange that lists every order open or settled, keeps the
    settled orders listed and keeps the type of each order, a successful
    reconciliation is a fixed point: reconciling again, at any later time,
    against the same server list succeeds and changes nothing (orders,
    balances and close times). *)
Theorem UpdateOrders_idempotent now now2 srv i i' :
  server_lists_open_or_settled srv ->
  server_keeps_settled srv (orders i) ->
  Forall (fun o => forall ro, find_order (order_id o) srv = Some ro ->
                   order_type ro = order_type o) (orders i) ->
  UpdateOrders now (Ok srv) i = (i', Ok tt) ->
  UpdateOrders now2 (Ok srv) i' = (i', Ok tt).
Proof.
  intros Hsrv Hkeep Hty Hu.
  pose proof (merge_orders_forall2 now srv (orders i) acc0) as Hrel.
  unfold UpdateOrders in Hu.
  destruct (check_latest (orders i) srv) eqn:Hc; try discriminate.
  destruct (merge_orders now srv (orders i) acc0) as [os r] eqn:Hm.
  destruct r as [ac| |]; try discriminate.
  inversion Hu; subst. simpl in Hrel.
  unfold UpdateOrders. simpl.
  rewrite (check_latest_same_last _ _ _ (merged_same_id_type _ _ _ _ Hty Hrel)), Hc.
  rewrite (merge_orders_stable now now2 srv (orders i) acc0 os ac Hsrv Hkeep Hm).
  reflexivity.
Qed.

Definition i_reconcile : investorBase :=
  set_orders (newInvestorBase 1000 10)
    [ord 1 TradeTypeSell 1 100; ord 2 TradeTypeBuy 1 80; ord 3 TradeTypeBuy 2 70].

Definition srv_reconcile : list Order :=
  [settled (ord 1 TradeTypeSell 1 100) 100 5; ord 3 TradeTypeBuy 2 70].

Lemma UpdateOrders_idempotent_witness :
  server_lists_open_or_settled srv_reconcile /\
  server_keeps_settled srv_reconcile (orders i_reconcile) /\
  Forall (fun o => forall ro, find_order (order_id o) srv_reconcile = Some ro ->
                   order_type ro = order_type o) (orders i_reconcile) /\
  UpdateOrders 10 (Ok srv_reconcile) i_reconcile =
    (fst (UpdateOrders 10 (Ok srv_reconcile) i_reconcile), Ok tt) /\
  UpdateOrders 20 (Ok srv_reconcile) (fst (UpdateOrders 10 (Ok srv_reconcile) i_reconcile)) =
    (fst (UpdateOrders 10 (Ok srv_reconcile) i_reconcile), Ok tt).
Proof.
  assert (H1 : server_lists_open_or_settled srv_reconcile).
  { intros r Hr. simpl in Hr.
    destruct Hr as [<- | [<- | []]]; [right; discriminate | left; reflexivity]. }
  assert (H2 : server_keeps_settled srv_reconcile (orders i_reconcile)).
  { intros o Ho Ht. simpl in Ho.
    destruct Ho as [<- | [<- | [<- | []]]]; simpl in *; congruence. }
  assert (H3 : Forall (fun o => forall ro, find_order (order_id o) srv_reconcile = Some ro ->
                   order_type ro = order_type o) (orders i_reconcile)).
  { repeat constructor; simpl; intros ro Hro; inversion Hro; reflexivity. }
  assert (H4 : UpdateOrders 10 (Ok srv_reconcile) i_reconcile =
    (fst (UpdateOrders 10 (Ok srv_reconcile) i_reconcile), Ok tt)) by reflexivity.
  split; [exact H1|]. split; [exact H2|]. split; [exact H3|]. split; [exact H4|].
  exact (UpdateOrders_idempotent 10 20 srv_reconcile i_reconcile _ H1 H2 H3 H4).
Defined.

(** ** Bounds on the orders the policy proposes *)

Lemma i64_range x : - 2 ^ 63 <= i64 x < 2 ^ 63.
Proof.
  unfold i64. pose proof (Z.mod_pos_bound (x + 2 ^ 63) (2 ^ 64)). lia.
Qed.

Lemma i64_small x : - 2 ^ 63 <= x < 2 ^ 63 -> i64 x = x.
Proof.
  intro H. unfold i64. rewrite Z.mod_small; lia.
Qed.

Lemma quot64_ratio a b :
  0 < b <= a -> a < 2 ^ 63 -> quot64 a b = a / b /\ 1 <= a / b <= a.
Proof.
  intros Hb Ha. unfold quot64. rewrite Z.quot_div_nonneg by lia.
  assert (1 <= a / b).
  { pose proof (Z.div_le_mono b a b ltac:(lia) ltac:(lia)) as H.
    rewrite Z.div_same in H; lia. }
  assert (a / b <= a) by (apply Z.div_le_upper_bound; nia).
  rewrite i64_small by lia. lia.
Qed.

Lemma quot64_mid a b :
  0 <= a < 2 ^ 62 -> 0 <= b < 2 ^ 62 ->
  quot64 (i64 (a + b)) 2 = (a + b) / 2.
Proof.
  intros Ha Hb. unfold quot64. rewrite (i64_small (a + b)) by lia.
  rewrite Z.quot_div_nonneg by lia. apply i64_small.
  pose proof (Z.div_pos (a + b) 2 ltac:(lia) ltac:(lia)).
  pose proof (Z.div_le_upper_bound (a + b) 2 (a + b) ltac:(lia) ltac:(lia)).
  lia.
Qed.

Ltac zbool :=
  repeat match goal with
  | E : (_ && _) = true |- _ => apply andb_true_iff in E; destruct E
  | E : (_ <? _) = true |- _ => apply Z.ltb_lt in E
  | E : (_ <? _) = false |- _ => apply Z.ltb_ge in E
  | E : (_ <=? _) = true |- _ => apply Z.leb_le in E
  | E : (_ <=? _) = false |- _ => apply Z.leb_gt in E
  | E : (_ =? _) = true |- _ => apply Z.eqb_eq in E
  | E : (_ =? _) = false |- _ => apply Z.eqb_neq in E
  end.

Lemma rand_Int63n_pos f n : 0 < n -> rand_Int63n f n = Some (f n).
Proof. intro Hn. unfold rand_Int63n. now rewrite (proj2 (Z.leb_gt _ _) Hn). Qed.

Lemma rand_Int63n_some f n r : rand_Int63n f n = Some r -> 0 < n /\ r = f n.
Proof.
  unfold rand_Int63n. destruct (n <=? 0) eqn:E; [discriminate|].
  intros [= <-]. apply Z.leb_gt in E. now split.
Qed.

Ltac split_policy H :=
  repeat match type of H with
  | context [if ?c then _ else _] => let E := fresh "E" in destruct c eqn:E
  | context [match pick_release ?a ?b ?c with _ => _ end] =>
      destruct (pick_release a b c) as [[? ?]|]
  | context [match rand_Int63n ?f ?n with _ => _ end] =>
      let R := fresh "R" in let Rn := fresh "Rn" in let r := fresh "r" in
      destruct (rand_Int63n f n) as [r|] eqn:R;
      [destruct (rand_Int63n_some f n r R) as [Rn ->]; clear R|]
  end; simpl in H; try discriminate H.

Section Policy.

Variable Int63n : Z -> Z.
Hypothesis Int63n_range : forall n, 0 < n -> 0 <= Int63n n < n.

Lemma rand_plus_one n :
  0 < n < 2 ^ 63 -> i64 (Int63n n + 1) = Int63n n + 1 /\ 1 <= Int63n n + 1 <= n.
Proof.
  intro Hn. pose proof (Int63n_range n ltac:(lia)).
  rewrite i64_small by lia. lia.
Qed.

Ltac policy_arith :=
  repeat match goal with
  | |- context [quot64 (i64 (?a + ?b)) 2] => rewrite (quot64_mid a b) in * by lia
  | |- context [quot64 ?a ?b] =>
      let Hq := fresh in let Hb := fresh in
      destruct (quot64_ratio a b ltac:(lia) ltac:(lia)) as [Hq Hb]; rewrite Hq in *; clear Hq
  | |- context [i64 (Int63n ?n + 1)] =>
      let Hq := fresh in let Hb := fresh in
      destruct (rand_plus_one n ltac:(lia)) as [Hq Hb]; rewrite Hq in *; clear Hq
  | _ : context [i64 (Int63n ?n + 1)] |- _ =>
      let Hq := fresh in let Hb := fresh in
      destruct (rand_plus_one n ltac:(lia)) as [Hq Hb]; rewrite Hq in *; clear Hq
  end;
  repeat split; intros; try discriminate; try lia; Z.div_mod_to_equations; lia.

(** With a unit amount of at least 1 and in range, and a unit price and
    best prices in range (unit price at least 1), every order the policy
    proposes has an amount between 1 and the unit amount and a price of at
    least 1, and a proposed sell never exceeds the inventory not yet
    reserved by open sells. *)
Theorem UpdateOrderTask_order_bounds cfg retired now ri ot amount price :
  1 <= unitamount ri < 2 ^ 63 ->
  1 <= unitprice ri < 2 ^ 62 ->
  0 <= lowestSellPrice (base ri) < 2 ^ 62 ->
  0 <= highestBuyPrice (base ri) < 2 ^ 62 ->
  fst (UpdateOrderTask cfg retired now Int63n ri) = Ok (Some (TAddOrder ot amount price)) ->
  (1 <= amount <= unitamount ri) /\ 1 <= price /\
  (ot = TradeTypeSell -> amount <= i64 (isu (base ri) - resvedIsu (base ri))).
Proof.
  intros Hua Hup Hlsp Hhbp H.
  pose proof (i64_range (isu (base ri) - resvedIsu (base ri))) as Hli.
  pose proof (i64_range (credit (base ri) - resvedCredit (base ri))) as Hlc.
  unfold UpdateOrderTask in H. cbv zeta in H.
  destruct retired; [discriminate|].
  split_policy H; inversion H; subst; clear H; zbool.
  all: policy_arith.
Qed.

(** When the best ask is below the unit price and affordable, an investor
    that is not retired, with a unit amount of at least 1, with tracked
    orders (fewer than [OrderCap]) and whose gate is open proposes a buy
    at the best ask of an amount between 1 and the unit amount whose
    notional does not exceed the credit not yet reserved by open buys. *)
Theorem UpdateOrderTask_buy_at_ask cfg now ri :
  update_flag cfg now (base ri) = true ->
  0 < Z.of_nat (List.length (orders (base ri))) < OrderCap ->
  0 < lowestSellPrice (base ri) < unitprice ri ->
  lowestSellPrice (base ri) <= i64 (credit (base ri) - resvedCredit (base ri)) ->
  1 <= unitamount ri ->
  exists amount,
    UpdateOrderTask cfg false now Int63n ri =
      (Ok (Some (TAddOrder TradeTypeBuy amount (lowestSellPrice (base ri)))), ri) /\
    (1 <= amount <= unitamount ri) /\
    amount * lowestSellPrice (base ri) <=
      i64 (credit (base ri) - resvedCredit (base ri)).
Proof.
  intros Hf Hn Hlsp Hlc Hua.
  pose proof (i64_range (credit (base ri) - resvedCredit (base ri))) as Hr.
  unfold UpdateOrderTask. cbv zeta. rewrite Hf. simpl negb. cbv iota.
  rewrite (proj2 (Z.leb_gt _ _) (proj2 Hn)).
  assert (Hn0 : (Z.of_nat (List.length (orders (base ri))) =? 0) = false)
    by (apply Z.eqb_neq; lia).
  rewrite Hn0. simpl andb. cbv iota.
  assert (Hc : ((0 <? lowestSellPrice (base ri)) &&
                (lowestSellPrice (base ri) <? unitprice ri) &&
                (lowestSellPrice (base ri) <=?
                 i64 (credit (base ri) - resvedCredit (base ri)))) = true).
  { rewrite !andb_true_iff, Z.ltb_lt, Z.ltb_lt, Z.leb_le. lia. }
  rewrite Hc.
  destruct (quot64_ratio (i64 (credit (base ri) - resvedCredit (base ri)))
              (lowestSellPrice (base ri)) ltac:(lia) ltac:(lia)) as [Hq Hb].
  rewrite Hq, rand_Int63n_pos by lia.
  destruct (rand_plus_one (i64 (credit (base ri) - resvedCredit (base ri)) /
              lowestSellPrice (base ri)) ltac:(lia)) as [Hq' Hb'].
  rewrite Hq'.
  pose proof (Z.mul_div_le (i64 (credit (base ri) - resvedCredit (base ri)))
                (lowestSellPrice (base ri)) ltac:(lia)).
  eexists. split; [reflexivity|].
  destruct (unitamount ri <? _) eqn:E; zbool; split; try lia; nia.
Qed.

(** The unit price moves only towards the last trade price: with a last
    trade price of at least 1 and prices in range, the unit price after
    the policy lies between the last trade price and the unit price
    before. *)
Theorem UpdateOrderTask_reprice cfg retired now ri :
  1 <= latestTradePrice (base ri) < 2 ^ 62 ->
  0 <= unitprice ri < 2 ^ 62 ->
  Z.min (latestTradePrice (base ri)) (unitprice ri) <=
    unitprice (snd (UpdateOrderTask cfg retired now Int63n ri)) <=
  Z.max (latestTradePrice (base ri)) (unitprice ri).
Proof.
  intros Hltp Hup. unfold UpdateOrderTask. cbv zeta.
  destruct retired; [simpl; lia|].
  repeat match goal with
  | |- context [if ?c then _ else _] => let E := fresh "E" in destruct c eqn:E
  | |- context [match pick_release ?a ?b ?c with _ => _ end] =>
      destruct (pick_release a b c) as [[? ?]|]
  | |- context [match rand_Int63n ?f ?n with _ => _ end] => destruct (rand_Int63n f n)
  end; simpl; try lia.
  rewrite quot64_mid by lia. Z.div_mod_to_equations. lia.
Qed.

End Policy.

(** The policy panics: an investor whose gate is open, with open orders
    (fewer than [OrderCap]), no best prices and a unit amount of at most 0
    below its available inventory reaches [rand.Int63n(i.unitamount)] with
    a non-positive argument. *)
Theorem UpdateOrderTask_panics cfg now Int63n ri :
  update_flag cfg now (base ri) = true ->
  0 < Z.of_nat (List.length (orders (base ri))) < OrderCap ->
  lowestSellPrice (base ri) = 0 ->
  highestBuyPrice (base ri) = 0 ->
  unitamount ri <= 0 ->
  unitamount ri < i64 (isu (base ri) - resvedIsu (base ri)) ->
  UpdateOrderTask cfg false now Int63n ri = (Panic msg_Int63n, ri).
Proof.
  intros Hf Hn Hlsp Hhbp Hua Hisu.
  unfold UpdateOrderTask. cbv zeta. rewrite Hf. simpl negb. cbv iota.
  rewrite (proj2 (Z.leb_gt _ _) (proj2 Hn)).
  assert (Hn0 : (Z.of_nat (List.length (orders (base ri))) =? 0) = false)
    by (apply Z.eqb_neq; lia).
  rewrite Hn0, Hlsp, Hhbp.
  simpl andb. cbv iota.
  rewrite (proj2 (Z.ltb_lt _ _) Hisu).
  unfold rand_Int63n. now rewrite (proj2 (Z.leb_le _ _) Hua).
Qed.


Definition rand_zero (n : Z) : Z := 0.

Lemma rand_zero_range : forall n, 0 < n -> 0 <= rand_zero n < n.
Proof. unfold rand_zero. lia. Qed.

(** One open sell, a best ask of 100 under a unit price of 110. *)
Definition ri_one_open : RandomInvestor :=
  mkRandomInvestor
    (mkInvestorBase 10000 10000 0 100 100 0 [ord 1 TradeTypeSell 1 120]
       100 90 95 true true 0 0 0 [])
    5 110.

(** One open buy, no credit, no inventory, no best prices, a last trade
    at 80 under a unit price of 100. *)
Definition ri_broke : RandomInvestor :=
  mkRandomInvestor
    (mkInvestorBase 0 0 0 0 0 0 [ord 1 TradeTypeBuy 1 50]
       0 0 80 true true 0 0 0 [])
    5 100.

Lemma UpdateOrderTask_order_bounds_witness :
  (forall n, 0 < n -> 0 <= rand_zero n < n) /\
  1 <= unitamount ri_one_open < 2 ^ 63 /\
  1 <= unitprice ri_one_open < 2 ^ 62 /\
  0 <= lowestSellPrice (base ri_one_open) < 2 ^ 62 /\
  0 <= highestBuyPrice (base ri_one_open) < 2 ^ 62 /\
  fst (UpdateOrderTask cfg_sample false 0 rand_zero ri_one_open) =
    Ok (Some (TAddOrder TradeTypeBuy 1 100)) /\
  ((1 <= 1 <= unitamount ri_one_open) /\ 1 <= 100 /\
   (TradeTypeBuy = TradeTypeSell ->
    1 <= i64 (isu (base ri_one_open) - resvedIsu (base ri_one_open)))).
Proof.
  assert (H1 : 1 <= unitamount ri_one_open < 2 ^ 63) by (simpl; lia).
  assert (H2 : 1 <= unitprice ri_one_open < 2 ^ 62) by (simpl; lia).
  assert (H3 : 0 <= lowestSellPrice (base ri_one_open) < 2 ^ 62) by (simpl; lia).
  assert (H4 : 0 <= highestBuyPrice (base ri_one_open) < 2 ^ 62) by (simpl; lia).
  assert (H5 : fst (UpdateOrderTask cfg_sample false 0 rand_zero ri_one_open) =
    Ok (Some (TAddOrder TradeTypeBuy 1 100))) by (vm_compute; reflexivity).
  split; [exact rand_zero_range|].
  do 5 (split; [assumption|]).
  exact (UpdateOrderTask_order_bounds rand_zero rand_zero_range cfg_sample false 0
           ri_one_open TradeTypeBuy 1 100 H1 H2 H3 H4 H5).
Defined.

Lemma UpdateOrderTask_buy_at_ask_witness :
  (forall n, 0 < n -> 0 <= rand_zero n < n) /\
  update_flag cfg_sample 0 (base ri_one_open) = true /\
  0 < Z.of_nat (List.length (orders (base ri_one_open))) < OrderCap /\
  0 < lowestSellPrice (base ri_one_open) < unitprice ri_one_open /\
  lowestSellPrice (base ri_one_open) <=
    i64 (credit (base ri_one_open) - resvedCredit (base ri_one_open)) /\
  1 <= unitamount ri_one_open /\
  exists amount,
    UpdateOrderTask cfg_sample false 0 rand_zero ri_one_open =
      (Ok (Some (TAddOrder TradeTypeBuy amount 100)), ri_one_open) /\
    (1 <= amount <= 5) /\ amount * 100 <= 10000.
Proof.
  assert (H1 : update_flag cfg_sample 0 (base ri_one_open) = true) by reflexivity.
  assert (H2 : 0 < Z.of_nat (List.length (orders (base ri_one_open))) < OrderCap)
    by (unfold OrderCap; simpl; lia).
  assert (H3 : 0 < lowestSellPrice (base ri_one_open) < unitprice ri_one_open)
    by (simpl; lia).
  assert (H4 : lowestSellPrice (base ri_one_open) <=
    i64 (credit (base ri_one_open) - resvedCredit (base ri_one_open)))
    by (vm_compute; discriminate).
  assert (H5 : 1 <= unitamount ri_one_open) by (simpl; lia).
  split; [exact rand_zero_range|].
  do 5 (split; [assumption|]).
  exact (UpdateOrderTask_buy_at_ask rand_zero rand_zero_range cfg_sample 0
           ri_one_open H1 H2 H3 H4 H5).
Defined.

Lemma UpdateOrderTask_reprice_witness :
  1 <= latestTradePrice (base ri_broke) < 2 ^ 62 /\
  0 <= unitprice ri_broke < 2 ^ 62 /\
  unitprice (snd (UpdateOrderTask cfg_sample false 0 rand_zero ri_broke)) = 90 /\
  Z.min 80 100 <= unitprice (snd (UpdateOrderTask cfg_sample false 0 rand_zero ri_broke))
    <= Z.max 80 100.
Proof.
  assert (H1 : 1 <= latestTradePrice (base ri_broke) < 2 ^ 62) by (simpl; lia).
  assert (H2 : 0 <= unitprice ri_broke < 2 ^ 62) by (simpl; lia).
  split; [exact H1|]. split; [exact H2|].
  split; [vm_compute; reflexivity|].
  exact (UpdateOrderTask_reprice rand_zero cfg_sample false 0 ri_broke H1 H2).
Defined.

Lemma UpdateOrderTask_panics_witness :
  let ri := mkRandomInvestor
              (mkInvestorBase 10000 10000 0 10 10 0 [ord 1 TradeTypeBuy 1 50]
                 0 0 0 true true 0 0 0 []) 0 100 in
  update_flag cfg_sample 0 (base ri) = true /\
  0 < Z.of_nat (List.length (orders (base ri))) < OrderCap /\
  lowestSellPrice (base ri) = 0 /\
  highestBuyPrice (base ri) = 0 /\
  unitamount ri <= 0 /\
  unitamount ri < i64 (isu (base ri) - resvedIsu (base ri)) /\
  UpdateOrderTask cfg_sample false 0 rand_zero ri = (Panic msg_Int63n, ri).
Proof.
  intro ri.
  assert (H1 : update_flag cfg_sample 0 (base ri) = true) by reflexivity.
  assert (H2 : 0 < Z.of_nat (List.length (orders (base ri))) < OrderCap)
    by (unfold OrderCap; simpl; lia).
  assert (H3 : lowestSellPrice (base ri) = 0) by reflexivity.
  assert (H4 : highestBuyPrice (base ri) = 0) by reflexivity.
  assert (H5 : unitamount ri <= 0) by (simpl; lia).
  assert (H6 : unitamount ri < i64 (isu (base ri) - resvedIsu (base ri)))
    by (vm_compute; reflexivity).
  do 6 (split; [assumption|]).
  exact (UpdateOrderTask_panics cfg_sample 0 rand_zero ri H1 H2 H3 H4 H5 H6).
Defined.

(** * Properties of the handlers *)

Section HandlerProperties.

Import Handler.

(** ** Transactions *)

(** [txScorp] keeps the body's writes only when the transaction began, the
    body returned nil and the commit succeeded; in every other case no
    write persists.  An error the body returns comes back unchanged (so a
    status code it carries reaches [handleError]); a panic in the body
    comes back as an error. *)
Theorem txScorp_atomic beginErr body commitErr :
  let '(err, ws) := txScorp beginErr body commitErr in
  (err = None <-> beginErr = None /\ fst body = BodyOk /\ commitErr = None) /\
  (err = None -> ws = snd body) /\
  (err <> None -> ws = []) /\
  (forall e, beginErr = None -> fst body = BodyErr e -> err = Some e) /\
  (forall v, beginErr = None -> fst body = BodyPanic v ->
     err = Some (GNew ("panic in transaction: " ++ v))).
Proof.
  destruct beginErr as [b|]; simpl.
  - repeat split; intros; try discriminate; intuition discriminate.
  - destruct body as [[| e | v] ws]; simpl.
    + destruct commitErr as [c|]; simpl; repeat split; intros;
        try discriminate; try reflexivity; intuition discriminate.
    + repeat split; intros; try discriminate; try congruence; intuition discriminate.
    + repeat split; intros; try discriminate; try congruence; intuition discriminate.
Qed.

Lemma txScorp_writes beginErr body commitErr :
  snd (txScorp beginErr body commitErr) <> [] ->
  beginErr = None /\ fst body = BodyOk /\ commitErr = None /\
  fst (txScorp beginErr body commitErr) = None /\
  snd (txScorp beginErr body commitErr) = snd body.
Proof.
  destruct beginErr; simpl; [intro H; now contradiction H|].
  destruct body as [[| e | v] ws]; simpl; try (intro H; now contradiction H).
  destruct commitErr; simpl; [intro H; now contradiction H|]. auto.
Qed.

(** ** formvalInt64 *)

Definition digit (k : Z) : Ascii.ascii := Ascii.ascii_of_nat (48 + Z.to_nat k).

Lemma digit_code k : 0 <= k < 10 -> Z.of_nat (Ascii.nat_of_ascii (digit k)) - 48 = k.
Proof.
  intro Hk. unfold digit. rewrite Ascii.nat_ascii_embedding by lia. lia.
Qed.

Lemma parse_step p k s :
  0 <= p -> 0 <= k < 10 -> p * 10 + k <= maxUint64 ->
  parse_digits p (digit k :: s) = parse_digits (p * 10 + k) s.
Proof.
  intros Hp Hk Hm. cbn [parse_digits]. cbv zeta. rewrite (digit_code k Hk).
  rewrite (proj2 (Z.ltb_ge k 0) ltac:(lia)), (proj2 (Z.ltb_ge 9 k) ltac:(lia)). simpl.
  assert (Hb : p < maxUint64 / 10 + 1) by (unfold maxUint64 in *; Z.div_mod_to_equations; lia).
  unfold maxUint64 in *. simpl in Hb.
  destruct (_ <=? p) eqn:E1; [apply Z.leb_le in E1; lia|].
  rewrite (proj2 (Z.ltb_ge _ _) Hm). reflexivity.
Qed.

Lemma digits_of_head f n acc :
  0 <= n -> exists k s, 0 <= k < 10 /\ digits_of (S f) n acc = String (digit k) s.
Proof.
  revert n acc. induction f as [|f IH]; intros n acc Hn; simpl digits_of.
  - exists (n mod 10), acc. split; [apply Z.mod_pos_bound; lia|].
    destruct (n <? 10); reflexivity.
  - destruct (n <? 10).
    + exists (n mod 10), acc. split; [apply Z.mod_pos_bound; lia|reflexivity].
    + apply IH. apply Z.div_pos; lia.
Qed.

Lemma digits_of_parse f n acc :
  0 <= n <= maxUint64 -> n < 10 ^ Z.of_nat f ->
  parse_digits 0 (list_ascii_of_string (digits_of f n acc)) =
  parse_digits n (list_ascii_of_string acc).
Proof.
  revert n acc. induction f as [|f IH]; intros n acc Hn Hf;
    [simpl in Hf; replace n with 0 by lia; reflexivity|].
  cbn [digits_of]. cbv zeta. change (Ascii.ascii_of_nat (48 + Z.to_nat (n mod 10))) with (digit (n mod 10)).
  rewrite Nat2Z.inj_succ, Z.pow_succ_r in Hf by lia.
  destruct (n <? 10) eqn:E.
  - apply Z.ltb_lt in E. cbn [list_ascii_of_string].
    rewrite parse_step by (unfold maxUint64 in *; Z.div_mod_to_equations; lia).
    f_equal. Z.div_mod_to_equations; lia.
  - apply Z.ltb_ge in E. rewrite IH.
    + cbn [list_ascii_of_string].
      rewrite parse_step by (unfold maxUint64 in *; Z.div_mod_to_equations; lia).
      f_equal. Z.div_mod_to_equations; lia.
    + unfold maxUint64 in *. Z.div_mod_to_equations; lia.
    + Z.div_mod_to_equations; lia.
Qed.

Lemma parse_digits_nonneg m l r : 0 <= m -> parse_digits m l = inr r -> 0 <= r.
Proof.
  revert m. induction l as [|c l IH]; intros m Hm H; simpl in H.
  - injection H as <-. exact Hm.
  - destruct ((_ <? 0) || (9 <? _)) eqn:E; [discriminate|].
    destruct (_ <=? m); [discriminate|].
    destruct (maxUint64 <? _); [discriminate|].
    apply orb_false_iff in E. destruct E as [E1 _]. apply Z.ltb_ge in E1.
    eapply IH; [|exact H]. lia.
Qed.

Lemma digit_not_sign k : 0 <= k < 10 ->
  Ascii.eqb (digit k) "+"%char = false /\ Ascii.eqb (digit k) "-"%char = false.
Proof.
  intro Hk.
  assert (Hplus : Ascii.nat_of_ascii "+"%char = 43%nat) by reflexivity.
  assert (Hminus : Ascii.nat_of_ascii "-"%char = 45%nat) by reflexivity.
  split; apply Ascii.eqb_neq; intro H;
    apply (f_equal Ascii.nat_of_ascii) in H; unfold digit in H;
    rewrite Ascii.nat_ascii_embedding in H by lia; rewrite ?Hplus, ?Hminus in H; lia.
Qed.

Lemma ParseUint_digits m :
  0 <= m <= maxUint64 -> ParseUint (list_ascii_of_string (digits_of 20 m EmptyString)) = inr m.
Proof.
  intro Hm. unfold ParseUint.
  destruct (digits_of_head 19 m EmptyString ltac:(lia)) as (k & s & Hk & Hh).
  destruct (list_ascii_of_string (digits_of 20 m EmptyString)) eqn:L;
    [rewrite Hh in L; discriminate|].
  rewrite <- L, digits_of_parse; [reflexivity|exact Hm|].
  unfold maxUint64 in Hm. assert (10 ^ Z.of_nat 20 = 10 ^ 20) as -> by reflexivity. lia.
Qed.

(** [formvalInt64] returns only int64 values, and it reads back the
    decimal text ([%d]) of every int64 as that same value: the bounds
    [strconv.ParseInt] checks are exactly those of int64. *)
Theorem formvalInt64_int64 key :
  (forall v i, formvalInt64 key v = inr i -> - 2 ^ 63 <= i < 2 ^ 63) /\
  (forall n, - 2 ^ 63 <= n < 2 ^ 63 -> formvalInt64 key (fmt_int n) = inr n).
Proof.
  split.
  - intros v i. unfold formvalInt64.
    destruct (String.eqb v ""); [discriminate|].
    destruct (ParseInt v) as [k|j] eqn:Hp; [discriminate|]. intros [= <-].
    unfold ParseInt in Hp.
    destruct (list_ascii_of_string v) as [|c rest]; [discriminate|].
    destruct (if Ascii.eqb c "+"%char then _ else _) as [neg digits].
    destruct (ParseUint digits) as [e|un] eqn:Hu; [discriminate|].
    assert (Hun : 0 <= un).
    { unfold ParseUint in Hu. destruct digits; [discriminate|].
      exact (parse_digits_nonneg 0 _ _ ltac:(lia) Hu). }
    destruct neg; cbn [negb andb] in Hp.
    + destruct (2 ^ 63 <? un) eqn:E; [discriminate|]. injection Hp as <-.
      apply Z.ltb_ge in E. lia.
    + destruct (2 ^ 63 <=? un) eqn:E; [discriminate|]. injection Hp as <-.
      apply Z.leb_gt in E. lia.
  - intros n Hn. unfold formvalInt64, fmt_int.
    destruct (n <? 0) eqn:E.
    + apply Z.ltb_lt in E. cbn [String.eqb]. cbv iota.
      unfold ParseInt. cbn [list_ascii_of_string].
      change (Ascii.eqb "-"%char "+"%char) with false.
      change (Ascii.eqb "-"%char "-"%char) with true. cbv iota.
      rewrite ParseUint_digits by (unfold maxUint64; lia).
      cbn [negb andb].
      rewrite (proj2 (Z.ltb_ge (2 ^ 63) (- n)) ltac:(lia)). f_equal. lia.
    + apply Z.ltb_ge in E.
      destruct (digits_of_head 19 n EmptyString E) as (k & s & Hk & Hh).
      assert (Hne : digits_of 20 n EmptyString <> EmptyString) by (rewrite Hh; discriminate).
      destruct (String.eqb_spec (digits_of 20 n EmptyString) EmptyString) as [Heq|_];
        [contradiction|]. cbv iota.
      unfold ParseInt.
      pose proof (ParseUint_digits n ltac:(unfold maxUint64; lia)) as Hu.
      destruct (list_ascii_of_string (digits_of 20 n EmptyString)) as [|c rest] eqn:L;
        [rewrite Hh in L; discriminate|].
      rewrite Hh in L. cbn [list_ascii_of_string] in L. injection L as <- _.
      destruct (digit_not_sign k Hk) as [Hp Hm]. rewrite Hp, Hm. cbv iota.
      rewrite Hu. cbn [negb andb].
      rewrite (proj2 (Z.leb_gt (2 ^ 63) n) ltac:(lia)). reflexivity.
Qed.

(** The handlers below take [strconv.Quote] as given. *)
Variable Quote : string -> string.

(** ** DeleteOrders *)

(** When looking the order up fails, with any error and in particular
    with [sql.ErrNoRows] (no order of that id), [DeleteOrders] answers 500
    and writes nothing: the error is wrapped before it is compared with
    [sql.ErrNoRows], so the 404 meant for a missing order is never sent. *)
Theorem DeleteOrders_lookup_error_500 u id_v getOrder now updateErr commitErr id e :
  id_v <> ""%string -> ParseInt id_v = inr id -> getOrder id = inl e ->
  DeleteOrders Quote (inr u) None None None id_v getOrder now updateErr commitErr =
    (RErr 500 ("model.GetOrderByIDWithLock failed. id: " ++ gmsg Quote e), []).
Proof.
  intros Hv Hp Hg. unfold DeleteOrders, DeleteOrders_body.
  rewrite (proj2 (String.eqb_neq _ _) Hv), Hp, Hg. reflexivity.
Qed.

(** An order is closed only for the signed-in user's own open order, of
    the requested id, and the response is then the id. *)
Theorem DeleteOrders_closes_own_open user beginErr lockErr loggerErr id_v getOrder
  now updateErr commitErr :
  let '(resp, ws) := DeleteOrders Quote user beginErr lockErr loggerErr id_v getOrder
                       now updateErr commitErr in
  ws <> [] ->
  exists u id o,
    user = inr u /\ ParseInt id_v = inr id /\ getOrder id = inr o /\
    dbo_user_id o = user_id u /\ dbo_closed_at o = None /\
    ws = [WCloseOrder (dbo_id o) now] /\ resp = ROk id.
Proof.
  unfold DeleteOrders.
  destruct user as [e|u]; [intros H; now contradiction H|].
  destruct (DeleteOrders_body u lockErr loggerErr id_v getOrder now updateErr)
    as [id body] eqn:Hb.
  pose proof (txScorp_writes beginErr body commitErr) as Hw.
  destruct (txScorp beginErr body commitErr) as [[err|] ws]; intros Hws;
    destruct (Hw Hws) as (_ & Hbody & _ & Herr & Hsnd); [discriminate Herr|].
  simpl in Hsnd. subst ws.
  unfold DeleteOrders_body in Hb.
  destruct lockErr; [inversion Hb; subst; discriminate|].
  destruct loggerErr; [inversion Hb; subst; discriminate|].
  destruct (String.eqb id_v ""); [inversion Hb; subst; discriminate|].
  destruct (ParseInt id_v) as [k|id'] eqn:Hp; [inversion Hb; subst; discriminate|].
  destruct (getOrder id') as [e|o] eqn:Hg.
  { destruct (is_sentinel _ _); inversion Hb; subst; discriminate. }
  destruct (negb (dbo_user_id o =? user_id u)) eqn:Hu; [inversion Hb; subst; discriminate|].
  destruct (dbo_closed_at o) eqn:Hc; [inversion Hb; subst; discriminate|].
  destruct updateErr; [inversion Hb; subst; discriminate|].
  inversion Hb; subst. exists u, id, o.
  apply negb_false_iff, Z.eqb_eq in Hu. repeat split; auto.
Qed.

(** For a request of the signed-in user naming an existing order: another
    user's order answers 404 "not found", an order already closed 404
    "already closed", and both write nothing; the user's own open order is
    closed at [now] and the id is returned (when the update and the commit
    succeed). *)
Theorem DeleteOrders_outcomes u id_v getOrder now updateErr commitErr id o :
  id_v <> ""%string -> ParseInt id_v = inr id -> getOrder id = inr o ->
  (dbo_user_id o <> user_id u ->
   DeleteOrders Quote (inr u) None None None id_v getOrder now updateErr commitErr =
     (RErr 404 "not found", [])) /\
  (dbo_user_id o = user_id u -> dbo_closed_at o <> None ->
   DeleteOrders Quote (inr u) None None None id_v getOrder now updateErr commitErr =
     (RErr 404 "already closed", [])) /\
  (dbo_user_id o = user_id u -> dbo_closed_at o = None ->
   DeleteOrders Quote (inr u) None None None id_v getOrder now None None =
     (ROk id, [WCloseOrder (dbo_id o) now])).
Proof.
  intros Hv Hp Hg. unfold DeleteOrders, DeleteOrders_body.
  rewrite (proj2 (String.eqb_neq _ _) Hv), Hp, Hg. simpl.
  split; [|split].
  - intro Hn. rewrite (proj2 (Z.eqb_neq _ _) Hn). reflexivity.
  - intros He Hc. rewrite (proj2 (Z.eqb_eq _ _) He).
    destruct (dbo_closed_at o); [reflexivity|congruence].
  - intros He Hc. rewrite (proj2 (Z.eqb_eq _ _) He), Hc. reflexivity.
Qed.

(** An empty or unparsable id answers 400 and writes nothing. *)
Theorem DeleteOrders_bad_id u id_v getOrder now updateErr commitErr :
  (id_v = ""%string \/ exists k, ParseInt id_v = inl k) ->
  exists msg,
    DeleteOrders Quote (inr u) None None None id_v getOrder now updateErr commitErr =
      (RErr 400 msg, []).
Proof.
  intros H. unfold DeleteOrders, DeleteOrders_body.
  destruct H as [-> | [k Hk]]; [eexists; reflexivity|].
  destruct (String.eqb id_v "") eqn:E; [eexists; reflexivity|].
  rewrite Hk. eexists; reflexivity.
Qed.

(** ** Signin *)

(** An unknown bank id and a wrong password get the same answer, 404
    "bank_id or password is not match", and no session. *)
Theorem Signin_same_answer bank_id password getUser compare sessionGetErr sessionSaveErr :
  bank_id <> ""%string -> password <> ""%string ->
  (getUser bank_id = inl sql_ErrNoRows ->
   Signin Quote bank_id password None getUser compare sessionGetErr sessionSaveErr =
     (RErr 404 msg_not_match, None)) /\
  (forall u, getUser bank_id = inr u ->
   compare (user_password u) password = Some bcrypt_ErrMismatchedHashAndPassword ->
   Signin Quote bank_id password None getUser compare sessionGetErr sessionSaveErr =
     (RErr 404 msg_not_match, None)).
Proof.
  intros Hb Hp. unfold Signin.
  rewrite (proj2 (String.eqb_neq _ _) Hb), (proj2 (String.eqb_neq _ _) Hp). simpl.
  split.
  - intro H. now rewrite H.
  - intros u Hu Hc. now rewrite Hu, Hc.
Qed.

(** A session is saved only for the user of the given bank id whose
    password hash matches, and the response is then that user. *)
Theorem Signin_session_only_on_match bank_id password loggerErr getUser compare
  sessionGetErr sessionSaveErr uid :
  snd (Signin Quote bank_id password loggerErr getUser compare sessionGetErr sessionSaveErr)
    = Some uid ->
  exists u, getUser bank_id = inr u /\ compare (user_password u) password = None /\
    uid = user_id u /\
    fst (Signin Quote bank_id password loggerErr getUser compare sessionGetErr sessionSaveErr)
      = ROk u.
Proof.
  unfold Signin.
  destruct (String.eqb bank_id "" || String.eqb password ""); [discriminate|].
  destruct loggerErr; [discriminate|].
  destruct (getUser bank_id) as [e|u] eqn:Hu;
    [destruct (is_sentinel sql_ErrNoRows e); discriminate|].
  destruct (compare (user_password u) password) as [e|] eqn:Hc;
    [destruct (is_sentinel bcrypt_ErrMismatchedHashAndPassword e); discriminate|].
  destruct sessionGetErr; [discriminate|].
  destruct sessionSaveErr; [discriminate|].
  intros [= <-]. exists u. auto.
Qed.

(** ** AddOrders *)

Variables OrderTypeBuy OrderTypeSell : string.

Lemma AddOrders_insert_ok u ot amount price insertErr lastInsertId id ws :
  AddOrders_insert u ot amount price insertErr lastInsertId = (id, (BodyOk, ws)) ->
  ws = [WInsertOrder ot (user_id u) amount price].
Proof.
  unfold AddOrders_insert.
  destruct insertErr; [discriminate|].
  destruct lastInsertId; [discriminate|]. congruence.
Qed.

Lemma AddOrders_body_ok u lockErr loggerErr bankErr amount_v price_v ot bankCheck
  insertErr lastInsertId id ws :
  AddOrders_body OrderTypeBuy OrderTypeSell u lockErr loggerErr bankErr amount_v
    price_v ot bankCheck insertErr lastInsertId = (id, (BodyOk, ws)) ->
  exists amount price,
    formvalInt64 "amount" amount_v = inr amount /\ 0 < amount /\
    formvalInt64 "price" price_v = inr price /\ 0 < price /\
    ((ot = OrderTypeBuy /\ bankCheck (user_bank_id u) (i64 (price * amount)) = None)
     \/ ot = OrderTypeSell) /\
    ws = [WInsertOrder ot (user_id u) amount price].
Proof.
  unfold AddOrders_body.
  destruct lockErr; [discriminate|].
  destruct loggerErr; [discriminate|].
  destruct bankErr; [discriminate|].
  destruct (formvalInt64 "amount" amount_v) as [e|amount]; [discriminate|].
  destruct (amount <=? 0) eqn:Ha; [discriminate|].
  destruct (formvalInt64 "price" price_v) as [e|price]; [discriminate|].
  destruct (price <=? 0) eqn:Hp; [discriminate|].
  apply Z.leb_gt in Ha, Hp.
  destruct (String.eqb ot OrderTypeBuy) eqn:Hb.
  - destruct (bankCheck (user_bank_id u) (i64 (price * amount))) as [e|] eqn:Hc.
    + destruct (is_sentinel _ _); discriminate.
    + intro H. exists amount, price. repeat split; auto.
      * left. split; [now apply String.eqb_eq|exact Hc].
      * exact (AddOrders_insert_ok _ _ _ _ _ _ _ _ H).
  - destruct (String.eqb ot OrderTypeSell) eqn:Hs; [|discriminate].
    intro H. exists amount, price. repeat split; auto.
    + right. now apply String.eqb_eq.
    + exact (AddOrders_insert_ok _ _ _ _ _ _ _ _ H).
Qed.

(** An order is stored only for a signed-in user, with an amount and a
    price that parse as positive integers, of type buy or sell, and for a
    buy only when the bank check of the user's account for the total
    price (the product wrapped to int64) succeeded. *)
Theorem AddOrders_stores_only_valid user beginErr lockErr loggerErr bankErr amount_v
  price_v ot bankCheck insertErr lastInsertId commitErr tradeChance :
  let '(resp, ws, run) :=
    AddOrders Quote OrderTypeBuy OrderTypeSell user beginErr lockErr loggerErr bankErr
      amount_v price_v ot bankCheck insertErr lastInsertId commitErr tradeChance in
  ws <> [] ->
  exists u amount price,
    user = inr u /\
    formvalInt64 "amount" amount_v = inr amount /\ 0 < amount /\
    formvalInt64 "price" price_v = inr price /\ 0 < price /\
    ((ot = OrderTypeBuy /\ bankCheck (user_bank_id u) (i64 (price * amount)) = None)
     \/ ot = OrderTypeSell) /\
    ws = [WInsertOrder ot (user_id u) amount price].
Proof.
  unfold AddOrders.
  destruct user as [e|u]; [intros H; now contradiction H|].
  destruct (AddOrders_body OrderTypeBuy OrderTypeSell u lockErr loggerErr bankErr
              amount_v price_v ot bankCheck insertErr lastInsertId) as [id body] eqn:Hb.
  pose proof (txScorp_writes beginErr body commitErr) as Hw.
  destruct (txScorp beginErr body commitErr) as [[err|] ws];
    [|destruct tradeChance]; intros Hws;
    destruct (Hw Hws) as (_ & Hbody & _ & Herr & Hsnd); try discriminate Herr;
    simpl in Hsnd; subst ws; destruct body as [br ws]; simpl in Hbody; subst br;
    destruct (AddOrders_body_ok _ _ _ _ _ _ _ _ _ _ _ _ Hb)
      as (amount & price & H1 & H2 & H3 & H4 & H5 & H6);
    exists u, amount, price; repeat split; auto.
Qed.

(** The answer to a sell order never depends on the bank: the bank check
    is made for buys only. *)
Theorem AddOrders_sell_ignores_bank user beginErr lockErr loggerErr bankErr amount_v
  price_v bankCheck bankCheck' insertErr lastInsertId commitErr tradeChance :
  OrderTypeSell <> OrderTypeBuy ->
  AddOrders Quote OrderTypeBuy OrderTypeSell user beginErr lockErr loggerErr bankErr
    amount_v price_v OrderTypeSell bankCheck insertErr lastInsertId commitErr tradeChance =
  AddOrders Quote OrderTypeBuy OrderTypeSell user beginErr lockErr loggerErr bankErr
    amount_v price_v OrderTypeSell bankCheck' insertErr lastInsertId commitErr tradeChance.
Proof.
  intro Hne. unfold AddOrders, AddOrders_body.
  rewrite (proj2 (String.eqb_neq _ _) Hne). reflexivity.
Qed.

(** A valid buy the bank refuses is not stored: the answer is 400 with
    the insufficient-balance text when the bank reports insufficient
    credit, and 500 for any other bank error. *)
Theorem AddOrders_bank_refusal u amount_v price_v bankCheck insertErr lastInsertId
  commitErr tradeChance amount price e :
  formvalInt64 "amount" amount_v = inr amount -> 0 < amount ->
  formvalInt64 "price" price_v = inr price -> 0 < price ->
  bankCheck (user_bank_id u) (i64 (price * amount)) = Some e ->
  AddOrders Quote OrderTypeBuy OrderTypeSell (inr u) None None None None amount_v price_v
    OrderTypeBuy bankCheck insertErr lastInsertId commitErr tradeChance =
  ((if is_sentinel isubank_ErrCreditInsufficient e
    then RErr 400 msg_credit_insufficient
    else RErr 500 ("isubank check failed: " ++ gmsg Quote e)), [], false).
Proof.
  intros Ha Ha0 Hp Hp0 Hc. unfold AddOrders, AddOrders_body.
  rewrite Ha, Hp, (proj2 (Z.leb_gt _ _) Ha0), (proj2 (Z.leb_gt _ _) Hp0),
    String.eqb_refl, Hc.
  destruct (is_sentinel isubank_ErrCreditInsufficient e); reflexivity.
Qed.

(** A valid sell is stored and answered with its id, and a trade is run
    when the order has a trade chance; if the trade-chance query fails
    after the commit, the order stays stored but the answer is 500. *)
Theorem AddOrders_sell_committed u amount_v price_v bankCheck id amount price :
  OrderTypeSell <> OrderTypeBuy ->
  formvalInt64 "amount" amount_v = inr amount -> 0 < amount ->
  formvalInt64 "price" price_v = inr price -> 0 < price ->
  (forall b, AddOrders Quote OrderTypeBuy OrderTypeSell (inr u) None None None None amount_v
     price_v OrderTypeSell bankCheck None (inr id) None (inr b) =
   (ROk id, [WInsertOrder OrderTypeSell (user_id u) amount price], b)) /\
  (forall e, AddOrders Quote OrderTypeBuy OrderTypeSell (inr u) None None None None amount_v
     price_v OrderTypeSell bankCheck None (inr id) None (inl e) =
   (handleError Quote e 500, [WInsertOrder OrderTypeSell (user_id u) amount price], false)).
Proof.
  intros Hne Ha Ha0 Hp Hp0. unfold AddOrders, AddOrders_body.
  rewrite Ha, Hp, (proj2 (Z.leb_gt _ _) Ha0), (proj2 (Z.leb_gt _ _) Hp0),
    (proj2 (String.eqb_neq _ _) Hne), String.eqb_refl.
  split; reflexivity.
Qed.

(** ** Info *)

Variable Time : Type.
Variable time_unix0 : Time.
Variables by_sec by_min by_hour : Time -> Time.
Variable Candle : Type.

Lemma handleError_not_ok {P} e code (r : P) : handleError Quote e code <> ROk r.
Proof. unfold handleError. destruct e; discriminate. Qed.

Lemma last_opt_In {A} (l : list A) x : last_opt l = Some x -> In x l.
Proof.
  induction l as [|y l IH]; simpl; [discriminate|].
  destruct l as [|z l].
  - intros [= ->]. now left.
  - intro H. right. exact (IH H).
Qed.

Ltac crush_info H :=
  repeat (cbv beta iota zeta in H;
    match type of H with
    | handleError Quote _ _ = ROk _ => exfalso; exact (handleError_not_ok _ _ _ H)
    | context [match ?x with _ => _ end] =>
        lazymatch x with
        | context [match _ with _ => _ end] => fail
        | _ => destruct x eqn:?
        end
    end).

(** A successful info answer returns as cursor the id of the last trade
    after the requested cursor, or the requested cursor (0 when absent)
    when there is none; when the trades listed are those after the
    requested cursor, the cursor never goes back.  Traded orders are
    returned only to a signed-in user and only when there are trades. *)
Theorem Info_cursor cursor_v getTradeByID getTradesByLastID user getOrders fetch
  candles lowestSell highestBuy r :
  Info Quote Time time_unix0 by_sec by_min by_hour Candle cursor_v getTradeByID
    getTradesByLastID user getOrders fetch candles lowestSell highestBuy = ROk r ->
  exists c trades,
    ((cursor_v = ""%string /\ c = 0) \/
     (cursor_v <> ""%string /\ ParseInt cursor_v = inr c)) /\
    getTradesByLastID c = inr trades /\
    ir_cursor r = match last_opt trades with Some t => trade_id t | None => c end /\
    (Forall (fun t => c < trade_id t) trades -> c <= ir_cursor r) /\
    (ir_traded_orders r <> None -> user <> None /\ trades <> []) /\
    ir_enable_share r = false.
Proof.
  intro H. unfold Info in H.
  crush_info H; inversion H; subst; clear H.
  all: match goal with
       | Hv : (_ =? "")%string = true |- _ => exists 0
       | Hp : ParseInt _ = inr ?c |- _ => exists c
       end.
  all: match goal with Ht : _ = inr ?l, Ho : last_opt ?l = _ |- _ => exists l end.
  all: split;
    [ (left; split; [apply String.eqb_eq; assumption | reflexivity]) ||
      (right; split; [intro Hc; rewrite Hc in *; discriminate | first [assumption | reflexivity]])
    | split; [assumption|] ].
  all: simpl; match goal with E : last_opt _ = _ |- _ => rewrite E end.
  all: split; [reflexivity|].
  all: split;
    [ intro HF; first
        [ lia
        | match goal with E : last_opt _ = Some ?t |- _ =>
            apply last_opt_In in E; rewrite Forall_forall in HF;
            specialize (HF _ E); simpl in HF; lia end ]
    | ].
  all: split; [|reflexivity].
  all: intro Ht; first [ exfalso; apply Ht; reflexivity | split; [discriminate|] ].
  all: intro Hn; subst; simpl in *; discriminate.
Qed.

(** A cursor that does not parse answers 400 with the text of the wrapped
    [*strconv.NumError]: the input, quoted by [strconv.Quote], and the
    reason. *)
Theorem Info_bad_cursor cursor_v getTradeByID getTradesByLastID user getOrders fetch
  candles lowestSell highestBuy k :
  cursor_v <> ""%string -> ParseInt cursor_v = inl k ->
  Info Quote Time time_unix0 by_sec by_min by_hour Candle cursor_v getTradeByID
    getTradesByLastID user getOrders fetch candles lowestSell highestBuy =
  RErr 400 ("cursor parse failed: strconv.ParseInt: parsing " ++ Quote cursor_v ++
            ": " ++ num_error_text k).
Proof.
  intros Hv Hp. unfold Info.
  rewrite (proj2 (String.eqb_neq _ _) Hv), Hp. reflexivity.
Qed.

End HandlerProperties.

Section HandlerWitnesses.

Import Handler.

(** [strconv.Quote] on an input of printable ASCII characters other than
    the double quote and the backslash: the input between double quotes. *)
Definition quote_plain (s : string) : string := quote ++ s ++ quote.

Definition user_sample : User := mkUser 1 "bank1" "alice" "hash".

Definition order_sample (uid : Z) (closed : option Z) : DbOrder :=
  mkDbOrder 5 "sell" uid 2 100 closed.

Lemma formvalInt64_int64_witness :
  formvalInt64 "amount" (fmt_int (- 2 ^ 63)) = inr (- 2 ^ 63) /\
  - 2 ^ 63 <= 42 < 2 ^ 63.
Proof.
  split.
  - apply (proj2 (formvalInt64_int64 "amount") (- 2 ^ 63)). lia.
  - apply (proj1 (formvalInt64_int64 "amount") "42"%string). reflexivity.
Defined.

Lemma DeleteOrders_lookup_error_500_witness :
  "5"%string <> ""%string /\ ParseInt "5" = inr 5 /\
  DeleteOrders quote_plain (inr user_sample) None None None "5" (fun _ => inl sql_ErrNoRows)
    42 None None =
    (RErr 500 ("model.GetOrderByIDWithLock failed. id: " ++ gmsg quote_plain sql_ErrNoRows), []).
Proof.
  split; [discriminate|]. split; [reflexivity|].
  apply (DeleteOrders_lookup_error_500 quote_plain user_sample "5" (fun _ => inl sql_ErrNoRows)
           42 None None 5 sql_ErrNoRows); [discriminate | reflexivity | reflexivity].
Defined.

Lemma DeleteOrders_outcomes_witness :
  DeleteOrders quote_plain (inr user_sample) None None None "5"
    (fun _ => inr (order_sample 1 None)) 42 None None =
    (ROk 5, [WCloseOrder 5 42]) /\
  DeleteOrders quote_plain (inr user_sample) None None None "5"
    (fun _ => inr (order_sample 2 None)) 42 None None = (RErr 404 "not found", []) /\
  DeleteOrders quote_plain (inr user_sample) None None None "5"
    (fun _ => inr (order_sample 1 (Some 7))) 42 None None =
    (RErr 404 "already closed", []).
Proof.
  split; [|split].
  - apply (proj2 (proj2 (DeleteOrders_outcomes quote_plain user_sample "5"
             (fun _ => inr (order_sample 1 None)) 42 None None 5 (order_sample 1 None)
             ltac:(discriminate) eq_refl eq_refl))); reflexivity.
  - apply (proj1 (DeleteOrders_outcomes quote_plain user_sample "5"
             (fun _ => inr (order_sample 2 None)) 42 None None 5 (order_sample 2 None)
             ltac:(discriminate) eq_refl eq_refl)); discriminate.
  - apply (proj1 (proj2 (DeleteOrders_outcomes quote_plain user_sample "5"
             (fun _ => inr (order_sample 1 (Some 7))) 42 None None 5
             (order_sample 1 (Some 7)) ltac:(discriminate) eq_refl eq_refl)));
      [reflexivity | discriminate].
Defined.

Lemma DeleteOrders_bad_id_witness :
  (exists k, ParseInt "12a" = inl k) /\
  exists msg, DeleteOrders quote_plain (inr user_sample) None None None "12a"
    (fun _ => inl sql_ErrNoRows) 42 None None = (RErr 400 msg, []).
Proof.
  split; [exists ErrSyntax; reflexivity|].
  apply (DeleteOrders_bad_id quote_plain user_sample "12a" (fun _ => inl sql_ErrNoRows) 42 None None).
  right. exists ErrSyntax. reflexivity.
Defined.

Definition getUser_sample (b : string) : gerror + User :=
  if String.eqb b "bank1" then inr user_sample else inl sql_ErrNoRows.

Definition compare_sample (hash password : string) : option gerror :=
  if String.eqb password "good" then None else Some bcrypt_ErrMismatchedHashAndPassword.

Lemma Signin_same_answer_witness :
  Signin quote_plain "bank9" "good" None getUser_sample compare_sample None None =
    (RErr 404 msg_not_match, None) /\
  Signin quote_plain "bank1" "bad" None getUser_sample compare_sample None None =
    (RErr 404 msg_not_match, None).
Proof.
  split.
  - apply (proj1 (Signin_same_answer quote_plain "bank9" "good" getUser_sample compare_sample
             None None ltac:(discriminate) ltac:(discriminate))).
    reflexivity.
  - apply (proj2 (Signin_same_answer quote_plain "bank1" "bad" getUser_sample compare_sample
             None None ltac:(discriminate) ltac:(discriminate)) user_sample);
      reflexivity.
Defined.

Lemma Signin_session_only_on_match_witness :
  snd (Signin quote_plain "bank1" "good" None getUser_sample compare_sample None None) = Some 1 /\
  exists u, getUser_sample "bank1" = inr u /\ compare_sample (user_password u) "good" = None /\
    1 = user_id u /\
    fst (Signin quote_plain "bank1" "good" None getUser_sample compare_sample None None) = ROk u.
Proof.
  split; [reflexivity|].
  apply (Signin_session_only_on_match quote_plain "bank1" "good" None getUser_sample compare_sample
           None None 1).
  reflexivity.
Defined.

Definition bank_sample (bank_id : string) (total : Z) : option gerror :=
  if total <=? 1000 then None else Some isubank_ErrCreditInsufficient.

Lemma AddOrders_sell_ignores_bank_witness :
  "sell"%string <> "buy"%string /\
  AddOrders quote_plain "buy" "sell" (inr user_sample) None None None None "3" "500" "sell"
    bank_sample None (inr 9) None (inr true) =
  AddOrders quote_plain "buy" "sell" (inr user_sample) None None None None "3" "500" "sell"
    (fun _ _ => Some (GNew "bank down")) None (inr 9) None (inr true).
Proof.
  split; [discriminate|].
  apply (AddOrders_sell_ignores_bank quote_plain "buy" "sell" (inr user_sample) None None None None
           "3" "500" bank_sample (fun _ _ => Some (GNew "bank down")) None (inr 9) None
           (inr true)).
  discriminate.
Defined.

Lemma AddOrders_bank_refusal_witness :
  bank_sample (user_bank_id user_sample) (i64 (500 * 3)) =
    Some isubank_ErrCreditInsufficient /\
  AddOrders quote_plain "buy" "sell" (inr user_sample) None None None None "3" "500" "buy"
    bank_sample None (inr 9) None (inr true) =
    (RErr 400 msg_credit_insufficient, [], false).
Proof.
  split; [reflexivity|].
  apply (AddOrders_bank_refusal quote_plain "buy" "sell" user_sample "3" "500" bank_sample None
           (inr 9) None (inr true) 3 500 isubank_ErrCreditInsufficient);
    first [reflexivity | lia].
Defined.

Lemma AddOrders_sell_committed_witness :
  formvalInt64 "amount" "3" = inr 3 /\ formvalInt64 "price" "500" = inr 500 /\
  AddOrders quote_plain "buy" "sell" (inr user_sample) None None None None "3" "500" "sell"
    bank_sample None (inr 9) None (inr true) =
    (ROk 9, [WInsertOrder "sell" 1 3 500], true).
Proof.
  split; [reflexivity|]. split; [reflexivity|].
  apply (proj1 (AddOrders_sell_committed quote_plain "buy" "sell" user_sample "3" "500" bank_sample
           9 3 500 ltac:(discriminate) eq_refl ltac:(lia) eq_refl ltac:(lia)) true).
Defined.

Definition trades_sample (c : Z) : gerror + list (TradeRow Z) :=
  inr (filter (fun t => c <? trade_id t) [mkTradeRow 3 30; mkTradeRow 4 40; mkTradeRow 5 50]).

Definition info_sample (cursor_v : string) : response (InfoRes Z) :=
  Handler.Info quote_plain Z 0 id id id Z cursor_v (fun i => inr (mkTradeRow i (10 * i)))
    trades_sample (Some user_sample) (fun _ _ => inr [order_sample 1 None]) inr
    (fun _ _ => inr []) (inl sql_ErrNoRows) (inr (order_sample 2 None)).

Lemma Info_cursor_witness :
  info_sample "3" =
    ROk (mkInfoRes 5 (Some [order_sample 1 None]) [] [] [] None (Some 100) false) /\
  exists c trades,
    (("3"%string = ""%string /\ c = 0) \/
     ("3"%string <> ""%string /\ ParseInt "3" = inr c)) /\
    trades_sample c = inr trades /\
    5 = match last_opt trades with Some t => trade_id t | None => c end /\
    (Forall (fun t => c < trade_id t) trades -> c <= 5) /\
    (Some [order_sample 1 None] <> None -> Some user_sample <> None /\ trades <> []) /\
    false = false.
Proof.
  split; [reflexivity|].
  apply (Info_cursor quote_plain Z 0 id id id Z "3" (fun i => inr (mkTradeRow i (10 * i)))
           trades_sample (Some user_sample) (fun _ _ => inr [order_sample 1 None]) inr
           (fun _ _ => inr []) (inl sql_ErrNoRows) (inr (order_sample 2 None))
           (mkInfoRes 5 (Some [order_sample 1 None]) [] [] [] None (Some 100) false)).
  reflexivity.
Defined.

Lemma Info_bad_cursor_witness :
  ParseInt "x1" = inl ErrSyntax /\
  info_sample "x1" =
    RErr 400 ("cursor parse failed: strconv.ParseInt: parsing " ++ quote_plain "x1" ++
              ": " ++ num_error_text ErrSyntax).
Proof.
  split; [reflexivity|].
  apply (Info_bad_cursor quote_plain Z 0 id id id Z "x1" (fun i => inr (mkTradeRow i (10 * i)))
           trades_sample (Some user_sample) (fun _ _ => inr [order_sample 1 None]) inr
           (fun _ _ => inr []) (inl sql_ErrNoRows) (inr (order_sample 2 None)) ErrSyntax);
    [discriminate | reflexivity].
Defined.

End HandlerWitnesses.
